(** * Text summarizer demos: validation gates and entity-span stitching

    A shallow embedding of the two handlers of the repository,

    - [App.summarize_text]      (app.py), and
    - [NerApp.process]          (text-summarizer-ner/app.py),

    over a small model of the Python values they manipulate: strings as
    lists of code points, integer offsets as [Z], slices with Python's
    clamping rules, exceptions as an error monad, and the two inference
    pipelines as opaque callables whose invocations are recorded.
    The loading of the models at start-up and the example texts are
    embedded too, and the stitching block a second time, statement by
    statement, on a store of mutable objects.  Logging is left out: no
    result depends on it. *)

From Stdlib Require Import ZArith String Ascii Lia.
From stdpp Require Import base list gmap.

Local Open Scope Z_scope.

(** ** Python values *)

Module Py.

(** A Python [str] is a sequence of Unicode code points. *)
Definition char := N.
Definition str := list char.

(** String literals of the source, written in ASCII. *)
Definition lit (s : string) : str :=
  List.map N_of_ascii (list_ascii_of_string s).

(** [len(s)] *)
Definition len (s : str) : Z := Z.of_nat (length s).

(** Truth value of a [str]: the empty string is falsy. *)
Definition truthy (s : str) : bool :=
  match s with [] => false | _ :: _ => true end.

(** The code points [str.isspace] accepts, which are the ones
    [str.strip()] removes when called without argument. *)
Definition isspace (c : char) : bool :=
  ((9 <=? c) && (c <=? 13) || (28 <=? c) && (c <=? 32)
   || (c =? 133) || (c =? 160) || (c =? 5760)
   || (8192 <=? c) && (c <=? 8202)
   || (c =? 8232) || (c =? 8233) || (c =? 8239) || (c =? 8287)
   || (c =? 12288))%N.

(** Empty, or made of whitespace only. *)
Definition whitespace_only (s : str) : bool := forallb isspace s.

Fixpoint lstrip (s : str) : str :=
  match s with
  | c :: s' => if isspace c then lstrip s' else s
  | [] => []
  end.

Definition rstrip (s : str) : str := reverse (lstrip (reverse s)).

(** [s.strip()] *)
Definition strip (s : str) : str := rstrip (lstrip s).

(** Normalisation of one slice bound against a sequence of length [n]:
    a negative bound counts from the end, and every bound is clamped
    into [0..n]. *)
Definition adjust_index (n i : Z) : Z :=
  if i <? 0 then Z.max (i + n) 0 else Z.min i n.

(** [s[lo:hi]] *)
Definition slice (s : str) (lo hi : Z) : str :=
  let lo' := adjust_index (len s) lo in
  let hi' := adjust_index (len s) hi in
  take (Z.to_nat (hi' - lo')) (drop (Z.to_nat lo') s).

(** [s[lo:]] *)
Definition slice_from (s : str) (lo : Z) : str :=
  drop (Z.to_nat (adjust_index (len s) lo)) s.

(** Exceptions deriving from [Exception]: the class name and the text
    that [str(e)] yields. *)
Record Exception := mkException { exc_type : string; exc_msg : str }.

Inductive outcome (A : Type) : Type :=
| Returns (a : A)
| Raises (e : Exception).
Arguments Returns {A} a.
Arguments Raises {A} e.

(** The inference pipelines are external callables.  A summarization
    pipeline answers with a list of records carrying [summary_text];
    a token-classification pipeline with aggregation answers with a
    list of entity records. *)
Record SummaryItem := mkSummaryItem { summary_text : str }.

Record Entity := mkEntity {
  start : Z;
  end_ : Z;
  entity_group : str
}.

Definition SummarizationPipeline := str -> Z -> Z -> outcome (list SummaryItem).
Definition NerPipeline := str -> outcome (list Entity).

(** Every invocation of a pipeline is recorded, in order. *)
Inductive Call :=
| SummarizerCall (text : str) (max_length min_length : Z)
| NerCall (text : str).

(** Computations that may raise and that may invoke pipelines. *)
Definition M (A : Type) : Type := list Call -> outcome A * list Call.

Definition ret {A} (a : A) : M A := fun calls => (Returns a, calls).

Definition raise {A} (e : Exception) : M A := fun calls => (Raises e, calls).

Definition bind {A B} (m : M A) (k : A -> M B) : M B :=
  fun calls =>
    match m calls with
    | (Returns a, calls') => k a calls'
    | (Raises e, calls') => (Raises e, calls')
    end.

(** A computation that invokes nothing and ends as [o] does. *)
Definition run {A} (o : outcome A) : M A := fun calls => (o, calls).

(** [try: body  except Exception as e: handler] *)
Definition try_except {A} (body : M A) (handler : Exception -> M A) : M A :=
  fun calls =>
    match body calls with
    | (Returns a, calls') => (Returns a, calls')
    | (Raises e, calls') => handler e calls'
    end.

Definition call_summarizer (p : SummarizationPipeline)
    (text : str) (max_length min_length : Z) : M (list SummaryItem) :=
  fun calls =>
    (p text max_length min_length,
     calls ++ [SummarizerCall text max_length min_length]).

Definition call_ner (p : NerPipeline) (text : str) : M (list Entity) :=
  fun calls => (p text, calls ++ [NerCall text]).

(** [l[0]] *)
Definition item0 {A} (l : list A) : M A :=
  match l with
  | a :: _ => ret a
  | [] => raise (mkException "IndexError" (lit "list index out of range"))
  end.

End Py.

Export Py.

Notation "'do' x <- m ; k" := (bind m (fun x => k))
  (at level 10, x name, m at level 100, k at level 200).

(** The warning sign followed by its variation selector, which opens the
    advisory messages of both apps. *)
Definition WARNING_SIGN : str := [9888%N; 65039%N].

(** ** app.py *)

Module App.

Definition MSG_NOT_LOADED : str :=
  lit "Error: Model not loaded correctly. Check logs.".

Definition MSG_EMPTY_INPUT : str :=
  WARNING_SIGN ++ lit " Please enter some text to summarize.".

Definition MSG_TOO_SHORT : str :=
  WARNING_SIGN
  ++ lit " Input text is too short. Please provide a longer paragraph.".

Definition error_message (e : Exception) : str :=
  lit "An error occurred: " ++ exc_msg e.

(** The body of the [try] block of [summarize_text].  The two lengths
    are integers, on which [int(...)] changes nothing. *)
Definition inference (pipe : SummarizationPipeline)
    (text : str) (max_len min_len : Z) : M str :=
  do summary_list <- call_summarizer pipe text max_len min_len;
  do first <- item0 summary_list;
  ret (summary_text first).

(** [summarize_text], with the module-level [summarizer] as its first
    argument: [None] when loading the model failed. *)
Definition summarize_text (summarizer : option SummarizationPipeline)
    (text : str) (max_len min_len : Z) : M str :=
  match summarizer with
  | None => ret MSG_NOT_LOADED
  | Some pipe =>
      if negb (truthy text) || negb (truthy (strip text)) then
        ret MSG_EMPTY_INPUT
      else if len text <? 50 then
        ret MSG_TOO_SHORT
      else
        try_except
          (inference pipe text max_len min_len)
          (fun e => ret (error_message e))
  end.

End App.

(** ** text-summarizer-ner/app.py *)

Module NerApp.

(** One element of the list handed to the highlighted-text widget:
    a piece of text and its entity label, or [None]. *)
Definition Segment := (str * option str)%type.

Definition MSG_NOT_INITIALIZED : str :=
  WARNING_SIGN ++ lit " Error: Models not initialized. See logs.".

Definition MSG_TOO_SHORT : str :=
  WARNING_SIGN
  ++ lit " Text too short. Please provide at least 50 characters.".

Definition error_message (e : Exception) : str :=
  lit "Error during processing: " ++ exc_msg e.

Record TextProcessor := mkTextProcessor {
  summarizer : option SummarizationPipeline;
  ner_pipeline : option NerPipeline
}.

(** The two local variables of the stitching loop. *)
Record StitchState := mkStitchState {
  formatted_output : list Segment;
  cursor : Z
}.

(** One iteration of [for entity in ner_res]. *)
Definition stitch_step (summary : str) (st : StitchState) (entity : Entity)
    : StitchState :=
  let out :=
    if start entity >? cursor st then
      formatted_output st ++ [(slice summary (cursor st) (start entity), None)]
    else formatted_output st in
  mkStitchState
    (out ++ [(slice summary (start entity) (end_ entity),
              Some (entity_group entity))])
    (end_ entity).

(** Step 3 of [process]: the segments for [summary] and its entities. *)
Definition stitch (summary : str) (ner_res : list Entity) : list Segment :=
  let st := foldl (stitch_step summary) (mkStitchState [] 0) ner_res in
  if cursor st <? len summary then
    formatted_output st ++ [(slice_from summary (cursor st), None)]
  else formatted_output st.

(** The text a list of segments displays: their texts, joined. *)
Definition joined (segments : list Segment) : str :=
  concat (map fst segments).

(** Segments that carry an entity label. *)
Definition has_label (segment : Segment) : bool :=
  match snd segment with Some _ => true | None => false end.

Definition labeled (segments : list Segment) : list Segment :=
  List.filter has_label segments.

(** The contract the stitching loop relies on.  Every entity lies inside
    the text and is not empty; entities come sorted by [start] and each
    one ends where the next one starts, or before. *)
Definition in_bounds (summary : str) (entity : Entity) : bool :=
  (0 <=? start entity) && (start entity <? end_ entity)
  && (end_ entity <=? len summary).

Fixpoint ordered (ner_res : list Entity) : bool :=
  match ner_res with
  | e1 :: ((e2 :: _) as rest) =>
      (start e1 <=? start e2) && (end_ e1 <=? start e2) && ordered rest
  | _ => true
  end.

Definition well_formed (summary : str) (ner_res : list Entity) : bool :=
  forallb (in_bounds summary) ner_res && ordered ner_res.

(** The loop's view of a well-formed entity list: from cursor [c] on,
    each entity starts at the cursor or later, is not empty, stays
    inside the text, and hands its end to the next one as cursor. *)
Fixpoint chained (summary : str) (c : Z) (ner_res : list Entity) : Prop :=
  match ner_res with
  | [] => True
  | e :: rest =>
      c <= start e /\ start e < end_ e /\ end_ e <= len summary
      /\ chained summary (end_ e) rest
  end.

(** The segment the loop writes for one entity. *)
Definition entity_segment (summary : str) (e : Entity) : Segment :=
  (slice summary (start e) (end_ e), Some (entity_group e)).

(** An entity whose offsets leave the text or are inverted. *)
Definition out_of_bounds (summary : str) (entity : Entity) : bool :=
  (start entity <? 0) || (len summary <? end_ entity)
  || (end_ entity <? start entity).

(** The same block as it runs under [try]: no statement of it raises. *)
Definition annotate (summary : str) (ner_res : list Entity)
    : outcome (list Segment) :=
  Returns (stitch summary ner_res).

(** The body of the [try] block of [process]: summarize, tag the
    summary, stitch. *)
Definition inference (summarize : SummarizationPipeline) (ner : NerPipeline)
    (text : str) (max_len min_len : Z) : M (str * list Segment) :=
  do summary_res <- call_summarizer summarize text max_len min_len;
  do first <- item0 summary_res;
  let summary := summary_text first in
  do ner_res <- call_ner ner summary;
  do formatted <- run (annotate summary ner_res);
  ret (summary, formatted).

Definition process (self : TextProcessor)
    (text : str) (max_len min_len : Z) : M (str * list Segment) :=
  match summarizer self, ner_pipeline self with
  | Some summarize, Some ner =>
      if negb (truthy text) || (len (strip text) <? 50) then
        ret (MSG_TOO_SHORT, [])
      else
        try_except
          (inference summarize ner text max_len min_len)
          (fun e => ret (error_message e, []))
  | _, _ => ret (MSG_NOT_INITIALIZED, [])
  end.

(** A run of [process] in which both models are loaded, the text passes
    the length check, the summarizer answers with [summary] first and
    the tagger answers with [ner_res] for it. *)
Definition inference_yields (self : TextProcessor)
    (text : str) (max_len min_len : Z)
    (summary : str) (ner_res : list Entity) : Prop :=
  exists summarize ner first rest,
    summarizer self = Some summarize
    /\ ner_pipeline self = Some ner
    /\ negb (truthy text) || (len (strip text) <? 50) = false
    /\ summarize text max_len min_len = Returns (first :: rest)
    /\ summary_text first = summary
    /\ ner summary = Returns ner_res.

End NerApp.

(** ** Stubs standing for loaded pipelines in concrete runs *)

Module Stubs.

Definition summarizer_returning (summary : str) : SummarizationPipeline :=
  fun _ _ _ => Returns [mkSummaryItem summary].

Definition summarizer_raising (message : str) : SummarizationPipeline :=
  fun _ _ _ => Raises (mkException "RuntimeError" message).

Definition ner_returning (entities : list Entity) : NerPipeline :=
  fun _ => Returns entities.

Definition sixty_spaces : str := replicate 60 32%N.

Definition ten_letters : str := lit "abcdefghij".

(** Ten letters between two runs of twenty-five spaces: sixty code
    points, ten of them left after [strip]. *)
Definition padded_letters : str :=
  replicate 25 32%N ++ ten_letters ++ replicate 25 32%N.

Definition sixty_letters : str := replicate 60 97%N.

Definition short : str := lit "short".

Definition beyond_short : Entity := mkEntity 0 10 (lit "X").

Definition hello_world : str := lit "hello world".

Definition tom_met_jerry : str := lit "Tom met Jerry".

Definition tom_and_jerry : list Entity :=
  [mkEntity 0 3 (lit "PER"); mkEntity 8 13 (lit "PER")].

(** A processor with both models loaded, whose summary is
    [tom_met_jerry] and whose entities are [tom_and_jerry]. *)
Definition loaded : NerApp.TextProcessor :=
  NerApp.mkTextProcessor
    (Some (summarizer_returning tom_met_jerry))
    (Some (ner_returning tom_and_jerry)).

(** A processor whose tagger gives an entity that leaves the summary. *)
Definition loaded_beyond : NerApp.TextProcessor :=
  NerApp.mkTextProcessor
    (Some (summarizer_returning short))
    (Some (ner_returning [beyond_short])).

(** A processor whose summarizer raises. *)
Definition loaded_raising : NerApp.TextProcessor :=
  NerApp.mkTextProcessor
    (Some (summarizer_raising (lit "out of memory")))
    (Some (ner_returning [])).

End Stubs.

(** ** Module level of app.py *)

Module AppSetup.

(** The factory [transformers.pipeline] as the two apps use it: asked
    for a summarization model or for a tagging model by name, it answers
    with a pipeline or raises. *)
Record Transformers := mkTransformers {
  summarization : str -> outcome SummarizationPipeline;
  ner : str -> outcome NerPipeline
}.

Definition MODEL_NAME : str := lit "sshleifer/distilbart-cnn-12-6".

(** The example offered under the input box; the literal starts and
    ends with a line break. *)
Definition SAMPLE_TEXT : str := lit "
Apollo 11 was the American spaceflight that first landed humans on the Moon. Commander Neil Armstrong and lunar module pilot Buzz Aldrin landed the Apollo Lunar Module Eagle on July 20, 1969. Armstrong became the first person to step onto the lunar surface six hours and 39 minutes later on July 21 at 02:56 UTC; Aldrin joined him 19 minutes later. They spent about two and a quarter hours together outside the spacecraft, and they collected 47.5 pounds (21.5 kg) of lunar material to bring back to Earth. Michael Collins flew the Command Module Columbia alone in lunar orbit while they were on the Moon's surface. Armstrong and Aldrin spent 21 hours, 36 minutes on the lunar surface before lifting off to rejoin Columbia.
".

(** The module-level [summarizer]: the pipeline, or [None] when loading
    it raised. *)
Definition summarizer (hf : Transformers) : option SummarizationPipeline :=
  match summarization hf MODEL_NAME with
  | Returns pipe => Some pipe
  | Raises _ => None
  end.

(** [clear_fields]: the new contents of the input and output boxes. *)
Definition clear_fields : str * str := ([], []).

End AppSetup.

(** ** Set-up of text-summarizer-ner/app.py *)

Module NerAppSetup.

Import AppSetup.

Definition SUM_MODEL : str := lit "sshleifer/distilbart-cnn-12-6".

Definition NER_MODEL : str := lit "dslim/bert-base-NER".

Definition SAMPLE_TEXT : str :=
  lit "Apollo 11 was the American spaceflight that first landed humans on the Moon. " ++
  lit "Commander Neil Armstrong and lunar module pilot Buzz Aldrin landed the Apollo Lunar Module Eagle on July 20, 1969. " ++
  lit "Armstrong became the first person to step onto the lunar surface six hours and 39 minutes later on July 21 at 02:56 UTC; " ++
  lit "Aldrin joined him 19 minutes later. They spent about two and a quarter hours together outside the spacecraft, " ++
  lit "and they collected 47.5 pounds (21.5 kg) of lunar material to bring back to Earth. " ++
  lit "Michael Collins flew the Command Module Columbia alone in lunar orbit while they were on the Moon's surface.".

(** [_load_models], on the processor and on the list of the models
    asked of the factory so far.  The first failure ends the loading and
    leaves the attributes set before it as they are. *)
Definition _load_models (hf : Transformers)
    (self : NerApp.TextProcessor) (requested : list str)
    : NerApp.TextProcessor * list str :=
  match summarization hf SUM_MODEL with
  | Raises _ => (self, requested ++ [SUM_MODEL])
  | Returns pipe =>
      let self :=
        NerApp.mkTextProcessor (Some pipe) (NerApp.ner_pipeline self) in
      match ner hf NER_MODEL with
      | Raises _ => (self, requested ++ [SUM_MODEL; NER_MODEL])
      | Returns tagger =>
          (NerApp.mkTextProcessor (NerApp.summarizer self) (Some tagger),
           requested ++ [SUM_MODEL; NER_MODEL])
      end
  end.

(** [TextProcessor.__init__] *)
Definition __init__ (hf : Transformers) (requested : list str)
    : NerApp.TextProcessor * list str :=
  _load_models hf (NerApp.mkTextProcessor None None) requested.

(** The handler of the clear button: input, summary, segments. *)
Definition clear : str * str * list NerApp.Segment := ([], [], []).

End NerAppSetup.

(** ** Measures on entity lists and segment lists *)

Module Stitched.

(** An entity that lies inside the text; it may be empty. *)
Definition inside (summary : str) (entity : Entity) : bool :=
  (0 <=? start entity) && (start entity <=? end_ entity)
  && (end_ entity <=? len summary).

(** No entity starts before the one before it ends. *)
Fixpoint disjoint (ner_res : list Entity) : bool :=
  match ner_res with
  | e1 :: ((e2 :: _) as rest) => (end_ e1 <=? start e2) && disjoint rest
  | _ => true
  end.

(** The number of code points the loop writes twice when it starts at
    cursor [c]: how far each entity starts before the cursor it meets. *)
Fixpoint overlap (c : Z) (ner_res : list Entity) : Z :=
  match ner_res with
  | [] => 0
  | e :: rest => Z.max 0 (c - start e) + overlap (end_ e) rest
  end.

(** No two neighbours without label. *)
Fixpoint separated (segments : list NerApp.Segment) : bool :=
  match segments with
  | a :: ((b :: _) as rest) =>
      (NerApp.has_label a || NerApp.has_label b) && separated rest
  | _ => true
  end.

(** The last segment written, when there is one, carries a label. *)
Definition ends_labeled (segments : list NerApp.Segment) : Prop :=
  match last segments with
  | Some seg => NerApp.has_label seg = true
  | None => True
  end.

(** A piece of [s]: some text before it and some text after it make up
    [s] with it. *)
Definition piece_of (s piece : str) : Prop :=
  exists before after, s = before ++ piece ++ after.

End Stitched.

(** ** More stubs for concrete runs *)

Module MoreStubs.

Import Stubs.

Definition ner_raising (message : str) : NerPipeline :=
  fun _ => Raises (mkException "RuntimeError" message).

(** Two entities of [tom_met_jerry] that share three code points. *)
Definition overlapping : list Entity :=
  [mkEntity 0 7 (lit "A"); mkEntity 4 13 (lit "B")].

(** The entities of [tom_and_jerry] with an empty one between them. *)
Definition with_empty_entity : list Entity :=
  [mkEntity 0 3 (lit "PER"); mkEntity 3 3 (lit "MISC");
   mkEntity 8 13 (lit "PER")].

End MoreStubs.

(** ** The stitching block on a store of objects *)

Module Heap.

(** Python's mutable objects live in a store and are reached by
    reference.  Strings, integers, [None] and tuples cannot be changed
    and are kept as plain values. *)
Definition loc := positive.

(** What a list can hold here: a reference to a dict, or a tuple of a
    text and a label. *)
Inductive value :=
| VRef (l : loc)
| VTuple (segment : NerApp.Segment).

(** A dict of the tagger, with the keys the block reads, or a list. *)
Inductive object :=
| ODict (entity : Entity)
| OList (items : list value).

(** A run on a store ends with a value or with an exception, and leaves
    a store; [None] stands for a run cut short by lack of fuel. *)
Definition H (A : Type) : Type :=
  gmap loc object -> option (outcome A * gmap loc object).

Definition ret {A} (a : A) : H A := fun st => Some (Returns a, st).

Definition raise {A} (e : Exception) : H A := fun st => Some (Raises e, st).

Definition bind {A B} (m : H A) (k : A -> H B) : H B :=
  fun st =>
    match m st with
    | Some (Returns a, st') => k a st'
    | Some (Raises e, st') => Some (Raises e, st')
    | None => None
    end.

Declare Scope heap_scope.
Delimit Scope heap_scope with heap.

Notation "'do' x <- m ; k" := (bind m (fun x => k))
  (at level 10, x name, m at level 100, k at level 200) : heap_scope.

Local Open Scope heap_scope.

(** A new object, at a reference not in use. *)
Definition alloc (o : object) : H loc :=
  fun st => let l := fresh (dom st) in Some (Returns l, <[l := o]> st).

(** The items of the list at [l], as the [for] statement reads them
    before each iteration. *)
Definition items_of (l : loc) : H (list value) :=
  fun st =>
    match st !! l with
    | Some (OList items) => Some (Returns items, st)
    | _ =>
        Some (Raises (mkException "TypeError"
                        (lit "object is not iterable")), st)
    end.

(** [entity[key]], the key given by the field it names. *)
Definition getitem {A} (entity : value) (key : Entity -> A) : H A :=
  fun st =>
    match entity with
    | VRef l =>
        match st !! l with
        | Some (ODict e) => Some (Returns (key e), st)
        | _ =>
            Some (Raises (mkException "TypeError"
                            (lit "list indices must be integers")), st)
        end
    | VTuple _ =>
        Some (Raises (mkException "TypeError"
                        (lit "tuple indices must be integers")), st)
    end.

(** [l.append(v)]: the one statement of the block that changes an
    object. *)
Definition append (l : loc) (v : value) : H unit :=
  fun st =>
    match st !! l with
    | Some (OList items) =>
        Some (Returns tt, <[l := OList (items ++ [v])]> st)
    | _ =>
        Some (Raises (mkException "AttributeError"
                        (lit "object has no attribute append")), st)
    end.

(** [for entity in ner_res: ...], from index [i] on.  Each iteration
    reads the list again, as Python's list iterator does, and reads the
    dict at every subscript. *)
Fixpoint for_entities (fuel : nat) (summary_text : str)
    (ner_res formatted_output : loc) (i : nat) (cursor : Z) : H Z :=
  match fuel with
  | O => fun _ => None
  | S fuel' =>
      do items <- items_of ner_res;
      match items !! i with
      | None => ret cursor
      | Some entity =>
          do start1 <- getitem entity start;
          do _ <- (if start1 >? cursor then
                     do start2 <- getitem entity start;
                     append formatted_output
                       (VTuple (slice summary_text cursor start2, None))
                   else ret tt);
          do start3 <- getitem entity start;
          do end1 <- getitem entity end_;
          do group <- getitem entity entity_group;
          do _ <- append formatted_output
                    (VTuple (slice summary_text start3 end1, Some group));
          do end2 <- getitem entity end_;
          for_entities fuel' summary_text ner_res formatted_output
            (S i) end2
      end
  end.

(** Lines 102 to 116 of text-summarizer-ner/app.py; the value is the
    reference held by [formatted_output]. *)
Definition stitch_block (fuel : nat) (summary_text : str) (ner_res : loc)
    : H loc :=
  do formatted_output <- alloc (OList []);
  do cursor <- for_entities fuel summary_text ner_res formatted_output
                 0%nat 0;
  do _ <- (if cursor <? len summary_text then
             append formatted_output
               (VTuple (slice_from summary_text cursor, None))
           else ret tt);
  ret formatted_output.

(** The entity that a list item refers to in a store. *)
Definition entity_at (st : gmap loc object) (item : value) : option Entity :=
  match item with
  | VRef l =>
      match st !! l with
      | Some (ODict e) => Some e
      | _ => None
      end
  | VTuple _ => None
  end.

(** The entities that the list at [ner_res] holds in a store. *)
Definition entities_at (st : gmap loc object) (ner_res : loc)
    : option (list Entity) :=
  match st !! ner_res with
  | Some (OList items) => mapM (entity_at st) items
  | _ => None
  end.

(** The store while the block runs on [st]: what [st] holds, and the
    list the block has allocated at [formatted_output]. *)
Definition running (st : gmap loc object) (formatted_output : loc)
    (segments : list NerApp.Segment) : gmap loc object :=
  <[formatted_output := OList (map VTuple segments)]> st.

(** Two stores for concrete runs: the same two entities, at different
    references and among different objects. *)
Definition store1 : gmap loc object :=
  <[1%positive := OList [VRef 2%positive; VRef 3%positive]]>
    (<[2%positive := ODict (mkEntity 0 3 (lit "PER"))]>
       (<[3%positive := ODict (mkEntity 8 13 (lit "PER"))]> ∅)).

Definition store2 : gmap loc object :=
  <[7%positive := OList [VRef 5%positive; VRef 4%positive]]>
    (<[5%positive := ODict (mkEntity 0 3 (lit "PER"))]>
       (<[4%positive := ODict (mkEntity 8 13 (lit "PER"))]>
          (<[1%positive := OList [VTuple (lit "kept", None)]]> ∅))).

End Heap.

(** * Properties *)

(** ** Slices inside the text *)

Section SliceFacts.

Variable s : str.

Lemma adjust_index_inside (i : Z) :
  0 <= i <= len s -> adjust_index (len s) i = i.
Proof.
  intros Hi. unfold adjust_index.
  destruct (Z.ltb_spec i 0); lia.
Qed.

Lemma slice_inside (lo hi : Z) :
  0 <= lo -> lo <= hi -> hi <= len s ->
  slice s lo hi = take (Z.to_nat (hi - lo)) (drop (Z.to_nat lo) s).
Proof.
  intros H0 H1 H2. unfold slice.
  rewrite !adjust_index_inside by lia. reflexivity.
Qed.

Lemma slice_from_inside (lo : Z) :
  0 <= lo <= len s -> slice_from s lo = drop (Z.to_nat lo) s.
Proof.
  intros H. unfold slice_from. now rewrite adjust_index_inside.
Qed.

(** A prefix followed by the slice that starts where it stops. *)
Lemma take_slice (lo hi : Z) :
  0 <= lo -> lo <= hi -> hi <= len s ->
  take (Z.to_nat lo) s ++ slice s lo hi = take (Z.to_nat hi) s.
Proof.
  intros H0 H1 H2. rewrite slice_inside by lia.
  rewrite take_take_drop. f_equal. lia.
Qed.

Lemma length_slice (lo hi : Z) :
  0 <= lo -> lo <= hi -> hi <= len s ->
  length (slice s lo hi) = Z.to_nat (hi - lo).
Proof.
  intros H0 H1 H2. rewrite slice_inside by lia.
  rewrite length_take, length_drop. unfold len in H2. lia.
Qed.

Lemma slice_nonempty (lo hi : Z) :
  0 <= lo -> lo < hi -> hi <= len s -> slice s lo hi <> [].
Proof.
  intros H0 H1 H2 E. apply (f_equal length) in E.
  rewrite length_slice in E by lia. simpl in E. lia.
Qed.

Lemma slice_from_nonempty (lo : Z) :
  0 <= lo -> lo < len s -> slice_from s lo <> [].
Proof.
  intros H0 H1 E. rewrite slice_from_inside in E by lia.
  apply (f_equal length) in E. rewrite length_drop in E.
  unfold len in H1. simpl in E. lia.
Qed.

End SliceFacts.

(** ** The stitching loop *)

Section Stitching.

Import NerApp.

Variable summary : str.

Lemma in_bounds_spec (e : Entity) :
  in_bounds summary e = true <->
  0 <= start e /\ start e < end_ e /\ end_ e <= len summary.
Proof.
  unfold in_bounds. rewrite !andb_true_iff.
  rewrite Z.leb_le, Z.ltb_lt, Z.leb_le. tauto.
Qed.

Lemma ordered_chained (ner_res : list Entity) : forall c : Z,
  forallb (in_bounds summary) ner_res = true ->
  ordered ner_res = true ->
  match ner_res with e :: _ => c <= start e | [] => True end ->
  chained summary c ner_res.
Proof.
  induction ner_res as [|e rest IH]; intros c Hb Ho Hc; [exact I|].
  simpl in Hb. apply andb_true_iff in Hb as [He Hrest].
  apply in_bounds_spec in He.
  simpl. repeat split; try lia.
  apply IH; [assumption| |].
  - destruct rest; [reflexivity|].
    simpl in Ho. apply andb_true_iff in Ho as [_ Ho]. exact Ho.
  - destruct rest as [|e' rest']; [exact I|].
    simpl in Ho. rewrite !andb_true_iff, !Z.leb_le in Ho. lia.
Qed.

Lemma well_formed_chained (ner_res : list Entity) :
  well_formed summary ner_res = true -> chained summary 0 ner_res.
Proof.
  unfold well_formed. intros [Hb Ho]%andb_true_iff.
  apply ordered_chained; [assumption..|].
  destruct ner_res as [|e rest]; [exact I|].
  simpl in Hb. apply andb_true_iff in Hb as [He _].
  apply in_bounds_spec in He. lia.
Qed.

Lemma joined_snoc (segments : list Segment) (seg : Segment) :
  joined (segments ++ [seg]) = joined segments ++ fst seg.
Proof.
  unfold joined. rewrite map_app, concat_app. simpl.
  now rewrite app_nil_r.
Qed.

Lemma labeled_snoc (segments : list Segment) (seg : Segment) :
  labeled (segments ++ [seg]) =
  labeled segments ++ (if has_label seg then [seg] else []).
Proof.
  unfold labeled. rewrite List.filter_app. simpl.
  now destruct (has_label seg).
Qed.

(** What one iteration leaves in the two loop variables. *)
Lemma stitch_step_cursor (st : StitchState) (e : Entity) :
  cursor (stitch_step summary st e) = end_ e.
Proof. reflexivity. Qed.

Lemma stitch_step_joined (st : StitchState) (e : Entity) :
  0 <= cursor st -> cursor st <= start e -> start e <= end_ e ->
  end_ e <= len summary ->
  joined (formatted_output st) = take (Z.to_nat (cursor st)) summary ->
  joined (formatted_output (stitch_step summary st e))
  = take (Z.to_nat (end_ e)) summary.
Proof.
  intros H0 H1 H2 H3 Hj. unfold stitch_step. simpl.
  rewrite joined_snoc. simpl. rewrite Z.gtb_ltb.
  destruct (Z.ltb_spec (cursor st) (start e)) as [Hlt|Hge].
  - rewrite joined_snoc, Hj. simpl.
    rewrite (take_slice summary (cursor st)) by lia.
    apply take_slice; lia.
  - rewrite Hj. replace (cursor st) with (start e) by lia.
    apply take_slice; lia.
Qed.

(** Invariant of the loop on well-formed input: the segments written
    so far spell the text up to the cursor. *)
Lemma loop_joined (ner_res : list Entity) : forall st : StitchState,
  0 <= cursor st <= len summary ->
  chained summary (cursor st) ner_res ->
  joined (formatted_output st) = take (Z.to_nat (cursor st)) summary ->
  let st' := foldl (stitch_step summary) st ner_res in
  0 <= cursor st' <= len summary
  /\ joined (formatted_output st') = take (Z.to_nat (cursor st')) summary.
Proof.
  induction ner_res as [|e rest IH]; intros st Hc Hch Hj; simpl.
  - split; assumption.
  - destruct Hch as (H1 & H2 & H3 & Hrest).
    apply IH.
    + rewrite stitch_step_cursor. lia.
    + rewrite stitch_step_cursor. exact Hrest.
    + rewrite stitch_step_cursor. apply stitch_step_joined; lia || assumption.
Qed.

(** Invariant of the loop on well-formed input: no segment written is
    empty. *)
Lemma loop_nonempty (ner_res : list Entity) : forall st : StitchState,
  0 <= cursor st ->
  chained summary (cursor st) ner_res ->
  Forall (fun seg : Segment => fst seg <> []) (formatted_output st) ->
  let st' := foldl (stitch_step summary) st ner_res in
  0 <= cursor st'
  /\ Forall (fun seg : Segment => fst seg <> []) (formatted_output st').
Proof.
  induction ner_res as [|e rest IH]; intros st Hc Hch Hne; simpl.
  - split; assumption.
  - destruct Hch as (H1 & H2 & H3 & Hrest).
    apply IH; [simpl; lia | exact Hrest |].
    unfold stitch_step. simpl. rewrite Z.gtb_ltb.
    apply Forall_app. split.
    + destruct (Z.ltb_spec (cursor st) (start e)) as [Hlt|Hge];
        [|assumption].
      apply Forall_app. split; [assumption|].
      constructor; [|constructor]. simpl.
      apply slice_nonempty; lia.
    + constructor; [|constructor]. simpl.
      apply slice_nonempty; lia.
Qed.

(** The labeled segments are the entities' own, in order, whatever the
    offsets are. *)
Lemma loop_labeled (ner_res : list Entity) : forall st : StitchState,
  labeled (formatted_output (foldl (stitch_step summary) st ner_res))
  = labeled (formatted_output st) ++ map (entity_segment summary) ner_res.
Proof.
  induction ner_res as [|e rest IH]; intros st; simpl.
  - now rewrite app_nil_r.
  - rewrite IH. unfold stitch_step at 1. simpl.
    rewrite labeled_snoc. simpl.
    destruct (start e >? cursor st).
    + rewrite labeled_snoc. simpl.
      now rewrite app_nil_r, <- app_assoc.
    + now rewrite <- app_assoc.
Qed.

Lemma stitch_labeled (ner_res : list Entity) :
  labeled (stitch summary ner_res) = map (entity_segment summary) ner_res.
Proof.
  unfold stitch. cbv zeta.
  destruct (_ <? _).
  - rewrite labeled_snoc. simpl. rewrite app_nil_r.
    now rewrite loop_labeled.
  - now rewrite loop_labeled.
Qed.

(** C1 (round trip).  For every text and every well-formed entity list
    (sorted by start, non-overlapping, each with
    0 <= start < end <= len(text)), the texts of the segments that the
    stitching returns, joined in order, are the text itself. *)
Theorem stitch_roundtrip (ner_res : list Entity) :
  well_formed summary ner_res = true ->
  joined (stitch summary ner_res) = summary.
Proof.
  intros Hwf%well_formed_chained.
  pose proof (loop_joined ner_res (mkStitchState [] 0)) as Hloop.
  simpl in Hloop.
  destruct Hloop as [Hc Hj]; [unfold len; lia | assumption | reflexivity |].
  unfold stitch. cbv zeta.
  destruct (Z.ltb_spec (cursor (foldl (stitch_step summary)
                                  (mkStitchState [] 0) ner_res))
                       (len summary)) as [Hlt|Hge].
  - rewrite joined_snoc, Hj. simpl.
    rewrite slice_from_inside by lia. apply take_drop.
  - rewrite Hj. apply take_ge. unfold len in *. lia.
Qed.

(** C3 (label fidelity).  For every text and every well-formed entity
    list, the segments that carry a label are as many as the entities,
    and the i-th of them holds the text [text[start:end]] and the label
    of the i-th entity. *)
Theorem stitch_label_fidelity (ner_res : list Entity) :
  well_formed summary ner_res = true ->
  length (labeled (stitch summary ner_res)) = length ner_res
  /\ forall (i : nat) (e : Entity),
       ner_res !! i = Some e ->
       labeled (stitch summary ner_res) !! i
       = Some (slice summary (start e) (end_ e), Some (entity_group e)).
Proof.
  intros _. rewrite stitch_labeled. split.
  - apply length_map.
  - intros i e Hi. rewrite list_lookup_fmap, Hi. reflexivity.
Qed.

(** C4 (no entities).  A non-empty text with an empty entity list gives
    exactly one segment, the whole text without label; the empty text
    with an empty entity list gives no segment. *)
Theorem stitch_no_entities :
  (summary <> [] -> stitch summary [] = [(summary, None)])
  /\ stitch [] [] = [].
Proof.
  split; [|reflexivity].
  intros Hne. destruct summary as [|c rest]; [contradiction|].
  unfold stitch. simpl foldl. simpl cursor.
  replace (0 <? len (c :: rest)) with true
    by (symmetry; apply Z.ltb_lt; unfold len; simpl; lia).
  reflexivity.
Qed.

(** C5 (no empty segment).  For every non-empty text and every
    well-formed entity list, each entity with start < end, no segment
    returned by the stitching has an empty text. *)
Theorem stitch_segments_nonempty (ner_res : list Entity) :
  summary <> [] ->
  well_formed summary ner_res = true ->
  Forall (fun seg : Segment => fst seg <> []) (stitch summary ner_res).
Proof.
  intros _ Hwf%well_formed_chained.
  pose proof (loop_nonempty ner_res (mkStitchState [] 0)) as Hloop.
  simpl in Hloop.
  destruct Hloop as [Hc Hne]; [lia | assumption | constructor |].
  unfold stitch. cbv zeta.
  destruct (Z.ltb_spec (cursor (foldl (stitch_step summary)
                                  (mkStitchState [] 0) ner_res))
                       (len summary)) as [Hlt|Hge]; [|assumption].
  apply Forall_app. split; [assumption|].
  constructor; [|constructor]. simpl.
  apply slice_from_nonempty; lia.
Qed.

End Stitching.

(** ** Blank input *)

Section Blank.

Lemma lstrip_nil_iff (s : str) :
  lstrip s = [] <-> whitespace_only s = true.
Proof.
  induction s as [|c s IH]; simpl; [tauto|].
  destruct (isspace c); simpl; [exact IH|].
  split; discriminate.
Qed.

(** What [lstrip] leaves starts with a code point that is no space. *)
Lemma lstrip_head (s : str) :
  match lstrip s with [] => True | c :: _ => isspace c = false end.
Proof.
  induction s as [|c s IH]; simpl; [exact I|].
  destruct (isspace c) eqn:E; [exact IH | exact E].
Qed.

Lemma whitespace_only_reverse (s : str) :
  whitespace_only (reverse s) = true <-> whitespace_only s = true.
Proof.
  unfold whitespace_only. rewrite !forallb_forall.
  split; intros H c Hc; apply H;
    apply list_elem_of_In; apply list_elem_of_In in Hc.
  - rewrite elem_of_reverse. exact Hc.
  - rewrite elem_of_reverse in Hc. exact Hc.
Qed.

Lemma reverse_nil_iff (s : str) : reverse s = [] <-> s = [].
Proof.
  split; intros H; [|now subst].
  apply (f_equal length) in H. rewrite length_reverse in H.
  now destruct s.
Qed.

(** [strip] leaves nothing exactly of the blank strings. *)
Lemma strip_nil_iff (s : str) :
  strip s = [] <-> whitespace_only s = true.
Proof.
  unfold strip, rstrip. rewrite reverse_nil_iff, lstrip_nil_iff.
  rewrite whitespace_only_reverse. split.
  - intros H. apply lstrip_nil_iff.
    pose proof (lstrip_head s) as Hh.
    destruct (lstrip s) as [|c rest]; [reflexivity|].
    simpl in H. rewrite Hh in H. discriminate.
  - intros H. apply lstrip_nil_iff in H. now rewrite H.
Qed.

(** The first test of [summarize_text], [not text or not text.strip()],
    holds exactly of the blank strings. *)
Lemma blank_test (text : str) :
  negb (truthy text) || negb (truthy (strip text)) = whitespace_only text.
Proof.
  destruct (whitespace_only text) eqn:E.
  - apply strip_nil_iff in E. rewrite E. simpl. apply orb_true_r.
  - destruct text as [|c text]; [discriminate|]. simpl.
    destruct (strip (c :: text)) eqn:Es; [|reflexivity].
    apply strip_nil_iff in Es. congruence.
Qed.

End Blank.

(** ** Pipeline invocations *)

Section Invocations.

Lemma snoc_neq {A} (l : list A) (x : A) (more : list A) :
  l ++ x :: more <> l.
Proof.
  intros H. apply (f_equal length) in H.
  rewrite length_app in H. simpl in H. lia.
Qed.

(** The [try] block of [summarize_text] invokes the summarizer once. *)
Lemma app_inference_calls (pipe : SummarizationPipeline)
    (text : str) (max_len min_len : Z) (calls : list Call) :
  snd (App.inference pipe text max_len min_len calls)
  = calls ++ [SummarizerCall text max_len min_len].
Proof.
  unfold App.inference, bind, call_summarizer.
  destruct (pipe text max_len min_len) as [[|first rest]|e]; reflexivity.
Qed.

(** How the [try] block of [summarize_text] ends. *)
Lemma app_inference_outcome (pipe : SummarizationPipeline)
    (text : str) (max_len min_len : Z) (calls : list Call) :
  fst (App.inference pipe text max_len min_len calls)
  = match pipe text max_len min_len with
    | Returns (first :: _) => Returns (summary_text first)
    | Returns [] =>
        Raises (mkException "IndexError" (lit "list index out of range"))
    | Raises e => Raises e
    end.
Proof.
  unfold App.inference, bind, call_summarizer.
  destruct (pipe text max_len min_len) as [[|first rest]|e]; reflexivity.
Qed.

(** The [try] block of [process] starts by invoking the summarizer. *)
Lemma ner_inference_calls (summarize : SummarizationPipeline)
    (ner : NerPipeline) (text : str) (max_len min_len : Z)
    (calls : list Call) :
  exists more,
    snd (NerApp.inference summarize ner text max_len min_len calls)
    = calls ++ SummarizerCall text max_len min_len :: more.
Proof.
  unfold NerApp.inference, bind, call_summarizer, call_ner.
  destruct (summarize text max_len min_len) as [[|first rest]|e]; simpl.
  - now exists [].
  - destruct (ner (summary_text first)); simpl;
      exists [NerCall (summary_text first)];
      now rewrite <- app_assoc.
  - now exists [].
Qed.

(** [try ... except Exception] always ends by returning when its handler
    does. *)
Lemma try_except_returns {A} (body : M A) (handler : Exception -> A)
    (calls : list Call) :
  exists a, fst (try_except body (fun e => ret (handler e)) calls) = Returns a.
Proof.
  unfold try_except. destruct (body calls) as [[a|e] calls']; simpl; eauto.
Qed.

Lemma try_except_calls {A} (body : M A) (handler : Exception -> A)
    (calls : list Call) :
  snd (try_except body (fun e => ret (handler e)) calls) = snd (body calls).
Proof.
  unfold try_except. destruct (body calls) as [[a|e] calls']; reflexivity.
Qed.

End Invocations.

(** ** The validation gate of [summarize_text] *)

Section SummarizeText.

Variable pipe : SummarizationPipeline.
Variables (text : str) (max_len min_len : Z) (calls : list Call).

Lemma summarize_text_blank :
  whitespace_only text = true ->
  App.summarize_text (Some pipe) text max_len min_len calls
  = (Returns App.MSG_EMPTY_INPUT, calls).
Proof.
  intros H. unfold App.summarize_text. now rewrite blank_test, H.
Qed.

Lemma summarize_text_short :
  whitespace_only text = false -> len text < 50 ->
  App.summarize_text (Some pipe) text max_len min_len calls
  = (Returns App.MSG_TOO_SHORT, calls).
Proof.
  intros H Hl. unfold App.summarize_text. rewrite blank_test, H.
  apply Z.ltb_lt in Hl. now rewrite Hl.
Qed.

Lemma summarize_text_accepted :
  whitespace_only text = false -> 50 <= len text ->
  App.summarize_text (Some pipe) text max_len min_len calls
  = try_except (App.inference pipe text max_len min_len)
      (fun e => ret (App.error_message e)) calls.
Proof.
  intros H Hl. unfold App.summarize_text. rewrite blank_test, H.
  apply Z.ltb_ge in Hl. now rewrite Hl.
Qed.

(** A text that passes both checks reaches the summarizer. *)
Lemma summarize_text_accepted_calls :
  whitespace_only text = false -> 50 <= len text ->
  snd (App.summarize_text (Some pipe) text max_len min_len calls)
  = calls ++ [SummarizerCall text max_len min_len].
Proof.
  intros H Hl. rewrite summarize_text_accepted by assumption.
  rewrite try_except_calls. apply app_inference_calls.
Qed.

Lemma advisories_differ : App.MSG_EMPTY_INPUT <> App.MSG_TOO_SHORT.
Proof. discriminate. Qed.

End SummarizeText.

(** ** The validation gate of [process] *)

Section Process.

Variables (summarize : SummarizationPipeline) (ner : NerPipeline).
Variables (text : str) (max_len min_len : Z) (calls : list Call).

Lemma process_rejects :
  text = [] \/ len (strip text) < 50 ->
  NerApp.process (NerApp.mkTextProcessor (Some summarize) (Some ner))
    text max_len min_len calls
  = (Returns (NerApp.MSG_TOO_SHORT, []), calls).
Proof.
  intros H. unfold NerApp.process. simpl.
  replace (negb (truthy text) || (len (strip text) <? 50)) with true;
    [reflexivity|].
  symmetry. apply orb_true_iff. destruct H as [->|H]; [now left|].
  right. now apply Z.ltb_lt.
Qed.

Lemma process_accepts :
  text <> [] -> 50 <= len (strip text) ->
  NerApp.process (NerApp.mkTextProcessor (Some summarize) (Some ner))
    text max_len min_len calls
  = try_except (NerApp.inference summarize ner text max_len min_len)
      (fun e => ret (NerApp.error_message e, [])) calls.
Proof.
  intros Hne Hl. unfold NerApp.process. simpl.
  replace (negb (truthy text) || (len (strip text) <? 50)) with false;
    [reflexivity|].
  symmetry. apply orb_false_iff. split.
  - destruct text; [contradiction | reflexivity].
  - now apply Z.ltb_ge.
Qed.

(** A blank text has nothing left after [strip], so [process] answers
    it as it answers a text that is too short. *)
Lemma process_blank :
  whitespace_only text = true ->
  NerApp.process (NerApp.mkTextProcessor (Some summarize) (Some ner))
    text max_len min_len calls
  = (Returns (NerApp.MSG_TOO_SHORT, []), calls).
Proof.
  intros H. apply process_rejects. right.
  apply strip_nil_iff in H. rewrite H. reflexivity.
Qed.

End Process.

(** ** Claims on the handlers *)

Section Handlers.

(** Every successful run of [process]: the summary, the segments stitched
    for it, and the two invocations recorded. *)
Lemma process_success (self : NerApp.TextProcessor)
    (text : str) (max_len min_len : Z)
    (summary : str) (ner_res : list Entity) (calls : list Call) :
  NerApp.inference_yields self text max_len min_len summary ner_res ->
  NerApp.process self text max_len min_len calls
  = (Returns (summary, NerApp.stitch summary ner_res),
     calls ++ [SummarizerCall text max_len min_len; NerCall summary]).
Proof.
  intros (summarize & ner & first & rest & Hs & Hn & Hg & Hsum & Hfst & Hner).
  unfold NerApp.process. rewrite Hs, Hn, Hg.
  unfold try_except, NerApp.inference, bind, call_summarizer, call_ner, run.
  rewrite Hsum. simpl. rewrite Hfst, Hner. simpl.
  now rewrite <- app_assoc.
Qed.

(** C2 (amended).  An entity whose offsets leave the text or are inverted
    does not make the stitching fail.  The call returns, and the
    entity's segment is the slice Python takes for these offsets, with
    bounds beyond the text clamped to it and negative bounds counted from
    its end. *)
Theorem annotate_out_of_bounds_returns (summary : str)
    (ner_res : list Entity) :
  existsb (NerApp.out_of_bounds summary) ner_res = true ->
  exists segments,
    NerApp.annotate summary ner_res = Returns segments
    /\ NerApp.labeled segments
       = map (fun e => (slice summary (start e) (end_ e),
                        Some (entity_group e))) ner_res.
Proof.
  intros _. exists (NerApp.stitch summary ner_res). split; [reflexivity|].
  apply stitch_labeled.
Qed.

(** C6 (amended).  In [summarize_text] a blank input gets the empty-input
    advisory and a non-blank input of less than 50 code points gets the
    too-short advisory; the two advisories differ, the blank test comes
    first, and neither case invokes the summarizer.  In [process] one
    test covers both cases: a blank input and an input with less than 50
    code points after trimming get the same too-short advisory, without
    any invocation. *)
Theorem validation_gates (pipe summarize : SummarizationPipeline)
    (ner : NerPipeline) (text : str) (max_len min_len : Z)
    (calls : list Call) :
  (whitespace_only text = true ->
   App.summarize_text (Some pipe) text max_len min_len calls
   = (Returns App.MSG_EMPTY_INPUT, calls))
  /\ (whitespace_only text = false -> len text < 50 ->
      App.summarize_text (Some pipe) text max_len min_len calls
      = (Returns App.MSG_TOO_SHORT, calls))
  /\ App.MSG_EMPTY_INPUT <> App.MSG_TOO_SHORT
  /\ (whitespace_only text = true \/ len (strip text) < 50 ->
      NerApp.process (NerApp.mkTextProcessor (Some summarize) (Some ner))
        text max_len min_len calls
      = (Returns (NerApp.MSG_TOO_SHORT, []), calls)).
Proof.
  split; [apply summarize_text_blank|].
  split; [apply summarize_text_short|].
  split; [apply advisories_differ|].
  intros [H|H]; [now apply process_blank|].
  apply process_rejects. now right.
Qed.

(** C7 (amended).  [summarize_text] compares 50 with the length of the
    input as given: a non-blank input is answered with the too-short
    advisory, the summarizer left alone, exactly when it has less than 50
    code points.  [process] compares 50 with the length of the trimmed
    input: it answers with its too-short advisory, nothing invoked,
    exactly when the input is empty or has less than 50 code points after
    trimming. *)
Theorem length_checks (pipe summarize : SummarizationPipeline)
    (ner : NerPipeline) (text : str) (max_len min_len : Z)
    (calls : list Call) :
  (whitespace_only text = false ->
   (App.summarize_text (Some pipe) text max_len min_len calls
    = (Returns App.MSG_TOO_SHORT, calls)
    <-> len text < 50))
  /\ (NerApp.process (NerApp.mkTextProcessor (Some summarize) (Some ner))
        text max_len min_len calls
      = (Returns (NerApp.MSG_TOO_SHORT, []), calls)
      <-> text = [] \/ len (strip text) < 50).
Proof.
  split.
  - intros Hw. split; [|now apply summarize_text_short].
    intros Heq. destruct (Z.lt_ge_cases (len text) 50) as [|Hge]; [assumption|].
    apply (f_equal snd) in Heq.
    rewrite summarize_text_accepted_calls in Heq by assumption.
    now apply snoc_neq in Heq.
  - split; [|apply process_rejects].
    intros Heq. destruct text as [|c rest] eqn:Et; [now left|]. right.
    destruct (Z.lt_ge_cases (len (strip (c :: rest))) 50) as [|Hge];
      [assumption|].
    rewrite process_accepts in Heq by (assumption || discriminate).
    apply (f_equal snd) in Heq. rewrite try_except_calls in Heq.
    destruct (ner_inference_calls summarize ner (c :: rest)
                max_len min_len calls) as [more Hmore].
    rewrite Hmore in Heq. now apply snoc_neq in Heq.
Qed.

(** C9 ([summarize_text] always returns a string).  Whatever the state of
    the model and whatever the input, [summarize_text] returns a string
    and raises nothing: the not-loaded message without a model, the
    empty-input advisory for a blank input, the too-short advisory for a
    short one, and the error message built from the exception when the
    inference raises. *)
Theorem summarize_text_always_returns
    (summarizer : option SummarizationPipeline)
    (text : str) (max_len min_len : Z) (calls : list Call) :
  (exists result,
     fst (App.summarize_text summarizer text max_len min_len calls)
     = Returns result)
  /\ (summarizer = None ->
      fst (App.summarize_text summarizer text max_len min_len calls)
      = Returns App.MSG_NOT_LOADED)
  /\ (forall pipe, summarizer = Some pipe ->
      (whitespace_only text = true ->
       fst (App.summarize_text summarizer text max_len min_len calls)
       = Returns App.MSG_EMPTY_INPUT)
      /\ (whitespace_only text = false -> len text < 50 ->
          fst (App.summarize_text summarizer text max_len min_len calls)
          = Returns App.MSG_TOO_SHORT)
      /\ (whitespace_only text = false -> 50 <= len text ->
          forall e calls',
            App.inference pipe text max_len min_len calls = (Raises e, calls') ->
            fst (App.summarize_text summarizer text max_len min_len calls)
            = Returns (App.error_message e))).
Proof.
  split; [|split].
  - destruct summarizer as [pipe|]; [|now exists App.MSG_NOT_LOADED].
    unfold App.summarize_text.
    destruct (_ || _); [now eexists|].
    destruct (_ <? _); [now eexists|].
    apply try_except_returns.
  - now intros ->.
  - intros pipe ->. split; [|split].
    + intros H. now rewrite summarize_text_blank.
    + intros H Hl. now rewrite summarize_text_short.
    + intros H Hl e calls' He.
      rewrite summarize_text_accepted by assumption.
      unfold try_except. now rewrite He.
Qed.

(** Every run of [process] returns, and either it returns no segment
    or it is a successful inference. *)
Lemma process_outcomes (self : NerApp.TextProcessor)
    (text : str) (max_len min_len : Z) (calls : list Call) :
  exists result,
    fst (NerApp.process self text max_len min_len calls) = Returns result
    /\ (snd result = []
        \/ exists summary ner_res,
             NerApp.inference_yields self text max_len min_len summary ner_res
             /\ result = (summary, NerApp.stitch summary ner_res)).
Proof.
  destruct self as [[summarize|] [ner|]];
    try (eexists; split; [reflexivity | now left]).
  unfold NerApp.process. simpl.
  destruct (negb (truthy text) || (len (strip text) <? 50)) eqn:Hg;
    [eexists; split; [reflexivity | now left]|].
  unfold try_except, NerApp.inference, bind, call_summarizer, call_ner, run.
  destruct (summarize text max_len min_len) as [[|first rest]|e] eqn:Hsum;
    simpl; try (eexists; split; [reflexivity | now left]).
  destruct (ner (summary_text first)) as [ner_res|e] eqn:Hner;
    simpl; try (eexists; split; [reflexivity | now left]).
  eexists. split; [reflexivity|]. right.
  exists (summary_text first), ner_res. split; [|reflexivity].
  exists summarize, ner, first, rest. now repeat split.
Qed.

(** C10 (advisories come without segments).  Whenever [process] answers
    with a warning or an error message (a model missing, an input that
    is too short, an exception during the inference), the list of
    segments in the pair it returns is empty. *)
Theorem process_advisory_without_segments (self : NerApp.TextProcessor)
    (text : str) (max_len min_len : Z) (calls : list Call) :
  (NerApp.summarizer self = None \/ NerApp.ner_pipeline self = None ->
   fst (NerApp.process self text max_len min_len calls)
   = Returns (NerApp.MSG_NOT_INITIALIZED, []))
  /\ (forall summarize ner,
      NerApp.summarizer self = Some summarize ->
      NerApp.ner_pipeline self = Some ner ->
      (text = [] \/ len (strip text) < 50 ->
       fst (NerApp.process self text max_len min_len calls)
       = Returns (NerApp.MSG_TOO_SHORT, []))
      /\ (text <> [] -> 50 <= len (strip text) ->
          forall e calls',
            NerApp.inference summarize ner text max_len min_len calls
            = (Raises e, calls') ->
            fst (NerApp.process self text max_len min_len calls)
            = Returns (NerApp.error_message e, [])))
  /\ (exists result,
        fst (NerApp.process self text max_len min_len calls) = Returns result
        /\ (snd result = []
            \/ exists summary ner_res,
                 NerApp.inference_yields self text max_len min_len
                   summary ner_res
                 /\ result = (summary, NerApp.stitch summary ner_res))).
Proof.
  split; [|split; [|apply process_outcomes]]; destruct self as [s n]; simpl.
  - intros [->| ->]; [reflexivity|]. now destruct s.
  - intros summarize ner -> ->. split.
    + intros H. now rewrite process_rejects.
    + intros Hne Hl e calls' He.
      rewrite process_accepts by assumption.
      unfold try_except. now rewrite He.
Qed.

End Handlers.

(** ** Concrete runs *)

Section ConcreteRuns.

Import Stubs.

Lemma stitch_roundtrip_witness :
  NerApp.well_formed tom_met_jerry tom_and_jerry = true
  /\ NerApp.joined (NerApp.stitch tom_met_jerry tom_and_jerry)
     = tom_met_jerry.
Proof.
  split; [reflexivity|].
  apply (stitch_roundtrip tom_met_jerry tom_and_jerry). reflexivity.
Defined.

Lemma stitch_label_fidelity_witness :
  NerApp.well_formed tom_met_jerry tom_and_jerry = true
  /\ length (NerApp.labeled (NerApp.stitch tom_met_jerry tom_and_jerry))
     = 2%nat
  /\ NerApp.labeled (NerApp.stitch tom_met_jerry tom_and_jerry) !! 1%nat
     = Some (lit "Jerry", Some (lit "PER")).
Proof.
  split; [reflexivity|].
  destruct (stitch_label_fidelity tom_met_jerry tom_and_jerry eq_refl)
    as [Hlen Hith].
  split; [exact Hlen|].
  exact (Hith 1%nat (mkEntity 8 13 (lit "PER")) eq_refl).
Defined.

Lemma stitch_no_entities_witness :
  NerApp.stitch hello_world [] = [(hello_world, None)].
Proof.
  apply (proj1 (stitch_no_entities hello_world)). discriminate.
Defined.

Lemma stitch_segments_nonempty_witness :
  tom_met_jerry <> []
  /\ NerApp.well_formed tom_met_jerry tom_and_jerry = true
  /\ Forall (fun seg : NerApp.Segment => fst seg <> [])
       (NerApp.stitch tom_met_jerry tom_and_jerry).
Proof.
  split; [discriminate|]. split; [reflexivity|].
  apply (stitch_segments_nonempty tom_met_jerry tom_and_jerry);
    [discriminate | reflexivity].
Defined.

(** C2, as stated, fails: the entity (0, 10, X) leaves the text
    [short], and the stitching returns the whole text as its segment;
    [process] hands that segment on as a regular result. *)
Lemma annotate_beyond_short_is_clamped :
  NerApp.out_of_bounds short beyond_short = true
  /\ NerApp.annotate short [beyond_short]
     = Returns [(short, Some (lit "X"))]
  /\ NerApp.process loaded_beyond sixty_letters 130 30 []
     = (Returns (short, [(short, Some (lit "X"))]),
        [SummarizerCall sixty_letters 130 30; NerCall short]).
Proof. repeat split. Qed.

Lemma annotate_out_of_bounds_returns_witness :
  existsb (NerApp.out_of_bounds short) [beyond_short] = true
  /\ exists segments,
       NerApp.annotate short [beyond_short] = Returns segments
       /\ NerApp.labeled segments = [(short, Some (lit "X"))].
Proof.
  split; [reflexivity|].
  exact (annotate_out_of_bounds_returns short [beyond_short] eq_refl).
Defined.

(** C6, as stated, fails on [process]: sixty spaces get the advisory
    that ten letters get, the too-short one. *)
Lemma process_blank_gets_too_short_advisory :
  whitespace_only sixty_spaces = true
  /\ NerApp.process loaded sixty_spaces 130 30 []
     = (Returns (NerApp.MSG_TOO_SHORT, []), [])
  /\ NerApp.process loaded ten_letters 130 30 []
     = (Returns (NerApp.MSG_TOO_SHORT, []), []).
Proof. repeat split. Qed.

Lemma validation_gates_witness :
  App.summarize_text (Some (summarizer_returning short))
    sixty_spaces 150 30 []
  = (Returns App.MSG_EMPTY_INPUT, [])
  /\ App.summarize_text (Some (summarizer_returning short))
       ten_letters 150 30 []
     = (Returns App.MSG_TOO_SHORT, [])
  /\ NerApp.process loaded sixty_spaces 130 30 []
     = (Returns (NerApp.MSG_TOO_SHORT, []), []).
Proof.
  split; [|split].
  - apply (validation_gates (summarizer_returning short)
             (summarizer_returning short) (ner_returning [])
             sixty_spaces 150 30 []). reflexivity.
  - apply (validation_gates (summarizer_returning short)
             (summarizer_returning short) (ner_returning [])
             ten_letters 150 30 []); reflexivity.
  - apply (validation_gates (summarizer_returning short)
             (summarizer_returning tom_met_jerry)
             (ner_returning tom_and_jerry)
             sixty_spaces 130 30 []). left. reflexivity.
Defined.

(** C7, as stated, fails on [process]: ten letters padded with spaces
    to sixty code points are answered as too short, although the input
    as given has sixty code points; [summarize_text] lets the same input
    through to the summarizer. *)
Lemma process_measures_trimmed_length :
  len padded_letters = 60
  /\ len (strip padded_letters) = 10
  /\ NerApp.process loaded padded_letters 130 30 []
     = (Returns (NerApp.MSG_TOO_SHORT, []), [])
  /\ App.summarize_text (Some (summarizer_returning short))
       padded_letters 150 30 []
     = (Returns short, [SummarizerCall padded_letters 150 30]).
Proof. repeat split. Qed.

Lemma length_checks_witness :
  App.summarize_text (Some (summarizer_returning short))
    ten_letters 150 30 []
  = (Returns App.MSG_TOO_SHORT, [])
  /\ NerApp.process loaded padded_letters 130 30 []
     = (Returns (NerApp.MSG_TOO_SHORT, []), []).
Proof.
  split.
  - apply (proj1 (length_checks (summarizer_returning short)
                    (summarizer_returning short) (ner_returning [])
                    ten_letters 150 30 []) eq_refl).
    reflexivity.
  - apply (proj2 (length_checks (summarizer_returning short)
                    (summarizer_returning tom_met_jerry)
                    (ner_returning tom_and_jerry)
                    padded_letters 130 30 [])).
    right. reflexivity.
Defined.

Lemma summarize_text_always_returns_witness :
  fst (App.summarize_text (Some (summarizer_raising (lit "out of memory")))
         sixty_letters 150 30 [])
  = Returns (lit "An error occurred: out of memory").
Proof.
  apply (proj2 (proj2 (proj2 (proj2
           (summarize_text_always_returns
              (Some (summarizer_raising (lit "out of memory")))
              sixty_letters 150 30 []))
           (summarizer_raising (lit "out of memory")) eq_refl))
         eq_refl ltac:(discriminate)
         (mkException "RuntimeError" (lit "out of memory"))
         [SummarizerCall sixty_letters 150 30] eq_refl).
Defined.

Lemma process_advisory_without_segments_witness :
  fst (NerApp.process loaded_raising sixty_letters 130 30 [])
  = Returns (lit "Error during processing: out of memory", []).
Proof.
  apply (proj2 (proj1 (proj2
           (process_advisory_without_segments
              loaded_raising sixty_letters 130 30 []))
           (summarizer_raising (lit "out of memory")) (ner_returning [])
           eq_refl eq_refl)
         ltac:(discriminate) ltac:(discriminate)
         (mkException "RuntimeError" (lit "out of memory"))
         [SummarizerCall sixty_letters 130 30] eq_refl).
Defined.

(** The runs of the stitching that the description of the annotator
    lists. *)
Example stitch_leading_entity :
  NerApp.stitch (lit "Paris is big") [mkEntity 0 5 (lit "LOC")]
  = [(lit "Paris", Some (lit "LOC")); (lit " is big", None)].
Proof. reflexivity. Qed.

Example stitch_entities_with_gap :
  NerApp.stitch tom_met_jerry tom_and_jerry
  = [(lit "Tom", Some (lit "PER")); (lit " met ", None);
     (lit "Jerry", Some (lit "PER"))].
Proof. reflexivity. Qed.

Example stitch_trailing_entity :
  NerApp.stitch (lit "big Paris") [mkEntity 4 9 (lit "LOC")]
  = [(lit "big ", None); (lit "Paris", Some (lit "LOC"))].
Proof. reflexivity. Qed.

End ConcreteRuns.

(** * Further properties *)

(** ** What the stitching writes, measured *)

Section Overlaps.

Import NerApp Stitched.

Variable summary : str.

Lemma inside_spec (e : Entity) :
  inside summary e = true <->
  0 <= start e /\ start e <= end_ e /\ end_ e <= len summary.
Proof.
  unfold inside. rewrite !andb_true_iff, !Z.leb_le. tauto.
Qed.

Lemma overlap_nonneg (ner_res : list Entity) : forall c, 0 <= overlap c ner_res.
Proof.
  induction ner_res as [|e rest IH]; intros c; simpl; [lia|].
  specialize (IH (end_ e)). lia.
Qed.

Lemma len_joined_snoc (segments : list Segment) (seg : Segment) :
  len (joined (segments ++ [seg])) = len (joined segments) + len (fst seg).
Proof.
  rewrite joined_snoc. unfold len. rewrite length_app. lia.
Qed.

Lemma len_slice (lo hi : Z) :
  0 <= lo -> lo <= hi -> hi <= len summary ->
  len (slice summary lo hi) = hi - lo.
Proof.
  intros H0 H1 H2. unfold len at 1. rewrite length_slice by lia. lia.
Qed.

(** One iteration adds to the written text what lies between the cursor
    and the end of the entity, and once more what the entity has before
    the cursor. *)
Lemma stitch_step_len (st : StitchState) (e : Entity) :
  0 <= cursor st <= len summary ->
  inside summary e = true ->
  len (joined (formatted_output (stitch_step summary st e))) - end_ e
  = len (joined (formatted_output st)) - cursor st
    + Z.max 0 (cursor st - start e).
Proof.
  intros Hc (H0 & H1 & H2)%inside_spec. unfold stitch_step. simpl.
  rewrite len_joined_snoc. simpl. rewrite len_slice by lia.
  rewrite Z.gtb_ltb.
  destruct (Z.ltb_spec (cursor st) (start e)) as [Hlt|Hge].
  - rewrite len_joined_snoc. simpl. rewrite len_slice by lia. lia.
  - lia.
Qed.

Lemma loop_len (ner_res : list Entity) : forall st : StitchState,
  0 <= cursor st <= len summary ->
  forallb (inside summary) ner_res = true ->
  let st' := foldl (stitch_step summary) st ner_res in
  0 <= cursor st' <= len summary
  /\ len (joined (formatted_output st')) - cursor st'
     = len (joined (formatted_output st)) - cursor st
       + overlap (cursor st) ner_res.
Proof.
  induction ner_res as [|e rest IH]; intros st Hc Hin; simpl.
  - split; [assumption | lia].
  - simpl in Hin. apply andb_true_iff in Hin as [He Hrest].
    pose proof (stitch_step_len st e Hc He) as Hstep.
    pose proof He as (H0 & H1 & H2)%inside_spec.
    destruct (IH (stitch_step summary st e)) as [Hc' Hlen'];
      [rewrite stitch_step_cursor; lia | assumption |].
    split; [exact Hc'|].
    rewrite Hlen', stitch_step_cursor. lia.
Qed.

Lemma len_joined_stitch (ner_res : list Entity) :
  forallb (inside summary) ner_res = true ->
  len (joined (stitch summary ner_res))
  = len summary + overlap 0 ner_res.
Proof.
  intros Hin.
  destruct (loop_len ner_res (mkStitchState [] 0)) as [Hc Hlen];
    [simpl; unfold len; lia | assumption |].
  simpl in Hlen. change (len (joined [])) with 0 in Hlen.
  unfold stitch. cbv zeta.
  destruct (Z.ltb_spec (cursor (foldl (stitch_step summary)
                                  (mkStitchState [] 0) ner_res))
                       (len summary)) as [Hlt|Hge].
  - rewrite len_joined_snoc. simpl.
    rewrite slice_from_inside by lia.
    unfold len at 2. rewrite length_drop. unfold len in *. lia.
  - lia.
Qed.

(** The loop keeps spelling the text as long as nothing is written
    twice; entities may be empty. *)
Lemma loop_joined_disjoint (ner_res : list Entity) : forall st : StitchState,
  0 <= cursor st <= len summary ->
  forallb (inside summary) ner_res = true ->
  overlap (cursor st) ner_res = 0 ->
  joined (formatted_output st) = take (Z.to_nat (cursor st)) summary ->
  let st' := foldl (stitch_step summary) st ner_res in
  0 <= cursor st' <= len summary
  /\ joined (formatted_output st') = take (Z.to_nat (cursor st')) summary.
Proof.
  induction ner_res as [|e rest IH]; intros st Hc Hin Hov Hj; simpl.
  - split; assumption.
  - simpl in Hin. apply andb_true_iff in Hin as [He Hrest].
    apply inside_spec in He as (H0 & H1 & H2).
    simpl in Hov. pose proof (overlap_nonneg rest (end_ e)) as Hnn.
    apply IH; rewrite ?stitch_step_cursor; try lia; try assumption.
    apply stitch_step_joined; lia || assumption.
Qed.

Lemma overlap_disjoint (ner_res : list Entity) : forall c : Z,
  forallb (inside summary) ner_res = true ->
  match ner_res with e :: _ => c <= start e | [] => True end ->
  (overlap c ner_res = 0 <-> disjoint ner_res = true).
Proof.
  induction ner_res as [|e rest IH]; intros c Hin Hc; [easy|].
  simpl in Hin. apply andb_true_iff in Hin as [He Hrest].
  change (overlap c (e :: rest))
    with (Z.max 0 (c - start e) + overlap (end_ e) rest).
  pose proof (overlap_nonneg rest (end_ e)) as Hnn.
  destruct rest as [|e' rest'].
  - simpl. split; [reflexivity | lia].
  - change (disjoint (e :: e' :: rest'))
      with ((end_ e <=? start e') && disjoint (e' :: rest')).
    rewrite andb_true_iff, Z.leb_le. split.
    + intros H. assert (Hrest0 : overlap (end_ e) (e' :: rest') = 0) by lia.
      assert (Hle : end_ e <= start e').
      { simpl in Hrest0.
        pose proof (overlap_nonneg rest' (end_ e')). lia. }
      split; [exact Hle|]. now apply (IH (end_ e)).
    + intros [Hle Hd]. apply (IH (end_ e)) in Hd; [lia | assumption..].
Qed.

(** X1 (length of the stitched text).  Entities that lie inside the
    text, in any order and overlapping at will, give a stitched text as
    long as the text plus what the entities overlap. *)
Theorem stitch_length_with_overlaps (ner_res : list Entity) :
  forallb (inside summary) ner_res = true ->
  len (joined (stitch summary ner_res))
  = len summary + overlap 0 ner_res.
Proof. apply len_joined_stitch. Qed.

Lemma joined_stitch_iff (ner_res : list Entity) :
  forallb (inside summary) ner_res = true ->
  (joined (stitch summary ner_res) = summary
   <-> disjoint ner_res = true).
Proof.
  intros Hin.
  assert (Hhead : match ner_res with
                  | e :: _ => 0 <= start e
                  | [] => True
                  end).
  { destruct ner_res as [|e rest]; [exact I|].
    simpl in Hin. apply andb_true_iff in Hin as [He _].
    now apply inside_spec in He. }
  rewrite <- (overlap_disjoint ner_res 0 Hin Hhead). split.
  - intros Heq. apply (f_equal len) in Heq.
    rewrite len_joined_stitch in Heq by assumption. lia.
  - intros Hov.
    destruct (loop_joined_disjoint ner_res (mkStitchState [] 0))
      as [Hc Hj]; try assumption; try reflexivity.
    { simpl. unfold len. lia. }
    unfold stitch. cbv zeta.
    destruct (Z.ltb_spec (cursor (foldl (stitch_step summary)
                                    (mkStitchState [] 0) ner_res))
                         (len summary)) as [Hlt|Hge].
    + rewrite joined_snoc, Hj. simpl.
      rewrite slice_from_inside by lia. apply take_drop.
    + rewrite Hj. apply take_ge. unfold len in *. lia.
Qed.

(** X2 (the round trip needs disjoint entities, and no more).  For
    entities that lie inside the text, empty ones included, the segments
    spell the text exactly when no entity starts before the one before
    it ends. *)
Theorem stitch_roundtrip_iff_disjoint (ner_res : list Entity) :
  forallb (inside summary) ner_res = true ->
  (joined (stitch summary ner_res) = summary
   <-> disjoint ner_res = true).
Proof. apply joined_stitch_iff. Qed.

End Overlaps.

(** ** The shape of the segment list, whatever the entities *)

Section Shape.

Import NerApp Stitched.

Variable summary : str.

Lemma separated_snoc (segments : list Segment) (seg : Segment) :
  separated (segments ++ [seg])
  = separated segments
    && match last segments with
       | Some prev => has_label prev || has_label seg
       | None => true
       end.
Proof.
  induction segments as [|a [|b rest] IH].
  - reflexivity.
  - simpl. now rewrite andb_true_r.
  - change (separated ((a :: b :: rest) ++ [seg]))
      with ((has_label a || has_label b)
            && separated ((b :: rest) ++ [seg])).
    rewrite IH.
    change (separated (a :: b :: rest))
      with ((has_label a || has_label b) && separated (b :: rest)).
    change (last (a :: b :: rest)) with (last (b :: rest)).
    now rewrite andb_assoc.
Qed.

Lemma separated_snoc_labeled (segments : list Segment) (seg : Segment) :
  separated segments = true -> has_label seg = true ->
  separated (segments ++ [seg]) = true.
Proof.
  intros Hs Hl. rewrite separated_snoc, Hs, Hl. simpl.
  destruct (last segments); [apply orb_true_r | reflexivity].
Qed.

Lemma separated_snoc_unlabeled (segments : list Segment) (seg : Segment) :
  separated segments = true -> ends_labeled segments ->
  separated (segments ++ [seg]) = true.
Proof.
  intros Hs He. rewrite separated_snoc, Hs. simpl.
  unfold ends_labeled in He.
  destruct (last segments); [now rewrite He | reflexivity].
Qed.

Lemma loop_separated (ner_res : list Entity) : forall st : StitchState,
  separated (formatted_output st) = true ->
  ends_labeled (formatted_output st) ->
  let st' := foldl (stitch_step summary) st ner_res in
  separated (formatted_output st') = true
  /\ ends_labeled (formatted_output st').
Proof.
  induction ner_res as [|e rest IH]; intros st Hs He; simpl.
  - split; assumption.
  - apply IH; unfold stitch_step; simpl.
    + apply separated_snoc_labeled; [|reflexivity].
      destruct (start e >? cursor st); [|assumption].
      now apply separated_snoc_unlabeled.
    + unfold ends_labeled. now rewrite last_snoc.
Qed.

Lemma loop_count (ner_res : list Entity) : forall st : StitchState,
  let st' := foldl (stitch_step summary) st ner_res in
  (length (formatted_output st) + length ner_res
   <= length (formatted_output st')
   <= length (formatted_output st) + 2 * length ner_res)%nat.
Proof.
  induction ner_res as [|e rest IH]; intros st; cbv zeta;
    [simpl; lia|].
  specialize (IH (stitch_step summary st e)). cbv zeta in IH.
  change (foldl (stitch_step summary) st (e :: rest))
    with (foldl (stitch_step summary) (stitch_step summary st e) rest).
  change (length (e :: rest)) with (S (length rest)).
  assert (Hstep : (length (formatted_output st) + 1
                   <= length (formatted_output (stitch_step summary st e))
                   <= length (formatted_output st) + 2)%nat).
  { unfold stitch_step. simpl.
    destruct (start e >? cursor st); rewrite !length_app; simpl; lia. }
  lia.
Qed.

Lemma slice_piece (lo hi : Z) : piece_of summary (slice summary lo hi).
Proof.
  unfold slice. cbv zeta.
  set (m := Z.to_nat (adjust_index (len summary) lo)).
  set (n := Z.to_nat (adjust_index (len summary) hi
                      - adjust_index (len summary) lo)).
  exists (take m summary), (drop n (drop m summary)).
  now rewrite (take_drop n), (take_drop m).
Qed.

Lemma slice_from_piece (lo : Z) : piece_of summary (slice_from summary lo).
Proof.
  unfold slice_from.
  exists (take (Z.to_nat (adjust_index (len summary) lo)) summary), [].
  now rewrite app_nil_r, take_drop.
Qed.

Lemma loop_pieces (ner_res : list Entity) : forall st : StitchState,
  Forall (fun seg : Segment => piece_of summary (fst seg))
    (formatted_output st) ->
  Forall (fun seg : Segment => piece_of summary (fst seg))
    (formatted_output (foldl (stitch_step summary) st ner_res)).
Proof.
  induction ner_res as [|e rest IH]; intros st H; simpl; [assumption|].
  apply IH. unfold stitch_step. simpl.
  apply Forall_app. split.
  - destruct (start e >? cursor st); [|assumption].
    apply Forall_app. split; [assumption|].
    constructor; [apply slice_piece | constructor].
  - constructor; [apply slice_piece | constructor].
Qed.

(** X3 (unlabeled segments never touch).  Whatever the entities are,
    in bounds or not, sorted or not, no two neighbours in the segment
    list are both without label. *)
Theorem stitch_separates_unlabeled (ner_res : list Entity) :
  separated (stitch summary ner_res) = true.
Proof.
  destruct (loop_separated ner_res (mkStitchState [] 0)) as [Hs He];
    [reflexivity | exact I |].
  unfold stitch. cbv zeta.
  destruct (_ <? _); [|assumption].
  now apply separated_snoc_unlabeled.
Qed.

(** X4 (number of segments).  Whatever the entities are, the stitching
    returns at least one segment for each entity and at most two for
    each entity and one more. *)
Theorem stitch_segment_count (ner_res : list Entity) :
  (length ner_res <= length (stitch summary ner_res)
   <= 2 * length ner_res + 1)%nat.
Proof.
  pose proof (loop_count ner_res (mkStitchState [] 0)) as H.
  simpl in H. unfold stitch. cbv zeta.
  destruct (_ <? _); rewrite ?length_app; simpl; lia.
Qed.

(** X5 (segments show text of the summary only).  Whatever the entities
    are, the text of every segment is a piece of the summary: the
    summary is some text, that segment's text, and some more text. *)
Theorem stitch_segments_are_pieces (ner_res : list Entity) :
  Forall (fun seg : Segment => piece_of summary (fst seg))
    (stitch summary ner_res).
Proof.
  pose proof (loop_pieces ner_res (mkStitchState [] 0)) as H.
  unfold stitch. cbv zeta.
  destruct (_ <? _); [|apply H; constructor].
  apply Forall_app. split; [apply H; constructor|].
  constructor; [apply slice_from_piece | constructor].
Qed.

End Shape.

(** ** Runs that pass the gate *)

Section AcceptedRuns.

Import Stitched.

Lemma length_lstrip (s : str) : (length (lstrip s) <= length s)%nat.
Proof.
  induction s as [|c s IH]; simpl; [lia|].
  destruct (isspace c); simpl; lia.
Qed.

(** [strip] only removes. *)
Lemma len_strip (s : str) : len (strip s) <= len s.
Proof.
  unfold strip, rstrip, len. rewrite length_reverse.
  pose proof (length_lstrip (reverse (lstrip s))) as H1.
  rewrite length_reverse in H1.
  pose proof (length_lstrip s) as H2. lia.
Qed.

(** X6 (what [summarize_text] does with an accepted text).  A text that
    is not blank and has 50 code points or more is handed to the
    summarizer as it is, untrimmed, with the two lengths as given, in
    one invocation.  The answer is the first summary of the list the
    summarizer returns; an empty list gives the error message of the
    failed indexing, and an exception gives the error message with its
    text. *)
Theorem summarize_text_accepted_run (pipe : SummarizationPipeline)
    (text : str) (max_len min_len : Z) (calls : list Call) :
  whitespace_only text = false -> 50 <= len text ->
  App.summarize_text (Some pipe) text max_len min_len calls
  = (Returns
       match pipe text max_len min_len with
       | Returns (first :: _) => summary_text first
       | Returns [] =>
           lit "An error occurred: list index out of range"
       | Raises e => lit "An error occurred: " ++ exc_msg e
       end,
     calls ++ [SummarizerCall text max_len min_len]).
Proof.
  intros Hw Hl. rewrite summarize_text_accepted by assumption.
  unfold try_except, App.inference, bind, call_summarizer.
  destruct (pipe text max_len min_len) as [[|first rest]|e]; reflexivity.
Qed.

(** X7 (what [process] does with an accepted text).  A non-empty text
    with 50 code points or more after trimming is handed to the
    summarizer untrimmed.  The tagger is invoked only when the summarizer
    returned a non-empty list, and on the first summary, not on the
    input.  When the tagger raises, the summary is dropped: the answer
    is the error message and no segment. *)
Theorem process_accepted_run (summarize : SummarizationPipeline)
    (ner : NerPipeline) (text : str) (max_len min_len : Z)
    (calls : list Call) :
  text <> [] -> 50 <= len (strip text) ->
  NerApp.process (NerApp.mkTextProcessor (Some summarize) (Some ner))
    text max_len min_len calls
  = match summarize text max_len min_len with
    | Returns (first :: _) =>
        let summary := summary_text first in
        (Returns
           match ner summary with
           | Returns ner_res => (summary, NerApp.stitch summary ner_res)
           | Raises e =>
               (lit "Error during processing: " ++ exc_msg e, [])
           end,
         calls ++ [SummarizerCall text max_len min_len; NerCall summary])
    | Returns [] =>
        (Returns
           (lit "Error during processing: list index out of range", []),
         calls ++ [SummarizerCall text max_len min_len])
    | Raises e =>
        (Returns (lit "Error during processing: " ++ exc_msg e, []),
         calls ++ [SummarizerCall text max_len min_len])
    end.
Proof.
  intros Hne Hl. rewrite process_accepts by assumption.
  unfold try_except, NerApp.inference, bind, call_summarizer, call_ner, run.
  destruct (summarize text max_len min_len) as [[|first rest]|e];
    try reflexivity.
  simpl. destruct (ner (summary_text first)) as [ner_res|e]; simpl;
    now rewrite <- app_assoc.
Qed.

(** X8 (the two results of [process] agree).  In a successful run whose
    entities lie inside the summary and do not overlap, the segments
    returned for the highlighted view spell the plain summary returned
    beside them. *)
Theorem process_segments_spell_summary (self : NerApp.TextProcessor)
    (text : str) (max_len min_len : Z) (calls : list Call)
    (summary : str) (ner_res : list Entity) :
  NerApp.inference_yields self text max_len min_len summary ner_res ->
  forallb (inside summary) ner_res = true ->
  disjoint ner_res = true ->
  exists segments,
    fst (NerApp.process self text max_len min_len calls)
    = Returns (summary, segments)
    /\ NerApp.joined segments = summary.
Proof.
  intros Hrun Hin Hd. exists (NerApp.stitch summary ner_res). split.
  - now rewrite (process_success _ _ _ _ _ _ _ Hrun).
  - now apply joined_stitch_iff.
Qed.

(** X9 (the gate of [process] is the stricter one).  A text that
    [process] hands to its summarizer is also handed to the summarizer
    by [summarize_text]. *)
Theorem process_gate_is_stricter (pipe summarize : SummarizationPipeline)
    (ner : NerPipeline) (text : str)
    (max_len min_len max_len' min_len' : Z) (calls calls' : list Call) :
  snd (NerApp.process (NerApp.mkTextProcessor (Some summarize) (Some ner))
         text max_len min_len calls) <> calls ->
  snd (App.summarize_text (Some pipe) text max_len' min_len' calls')
  = calls' ++ [SummarizerCall text max_len' min_len'].
Proof.
  intros Hcalls.
  assert (Hne : text <> []).
  { intros ->. apply Hcalls. now rewrite process_rejects by now left. }
  assert (Hl : 50 <= len (strip text)).
  { destruct (Z.lt_ge_cases (len (strip text)) 50) as [Hlt|]; [|assumption].
    exfalso. apply Hcalls. now rewrite process_rejects by now right. }
  apply summarize_text_accepted_calls.
  - destruct (whitespace_only text) eqn:Hw; [|reflexivity].
    apply strip_nil_iff in Hw. rewrite Hw in Hl. simpl in Hl.
    unfold len in Hl. simpl in Hl. lia.
  - pose proof (len_strip text). lia.
Qed.

End AcceptedRuns.

(** ** Model loading *)

Section Loading.

Import AppSetup NerAppSetup.

Variable hf : Transformers.

(** X10 (loading order of the two models).  The processor that
    [__init__] builds never holds a tagger without a summarizer; the
    tagging model is asked for only after the summarization model
    loaded, and a summarizer that loaded stays set when the tagger fails
    to load. *)
Theorem init_loads_summarizer_first (requested : list str) :
  (NerApp.ner_pipeline (fst (__init__ hf requested)) <> None ->
   NerApp.summarizer (fst (__init__ hf requested)) <> None)
  /\ (NerApp.summarizer (fst (__init__ hf requested)) = None
      <-> exists e, summarization hf SUM_MODEL = Raises e)
  /\ (NerApp.summarizer (fst (__init__ hf requested)) = None ->
      snd (__init__ hf requested) = requested ++ [SUM_MODEL])
  /\ (NerApp.summarizer (fst (__init__ hf requested)) <> None ->
      snd (__init__ hf requested) = requested ++ [SUM_MODEL; NER_MODEL]).
Proof.
  unfold __init__, _load_models.
  destruct (summarization hf SUM_MODEL) as [pipe|e];
    [destruct (ner hf NER_MODEL) as [tagger|e']|]; simpl;
    repeat split; try congruence; try (intros [e0 He0]; congruence);
    eauto.
Qed.

(** X11 ([process] after a failed loading).  The processor that
    [__init__] builds answers every request with the not-initialized
    message, without segments and without invoking anything, exactly
    when loading one of the two models raised. *)
Theorem process_after_init (requested : list str) :
  ((exists e, summarization hf SUM_MODEL = Raises e)
   \/ (exists e, ner hf NER_MODEL = Raises e))
  <-> (forall text max_len min_len calls,
         NerApp.process (fst (__init__ hf requested))
           text max_len min_len calls
         = (Returns (NerApp.MSG_NOT_INITIALIZED, []), calls)).
Proof.
  unfold __init__, _load_models.
  destruct (summarization hf SUM_MODEL) as [pipe|e];
    [destruct (ner hf NER_MODEL) as [tagger|e']|]; simpl; split.
  - intros [[e He]|[e He]]; discriminate.
  - intros H. specialize (H [] 0 0 []). discriminate.
  - reflexivity.
  - intros _. right. eauto.
  - reflexivity.
  - intros _. left. eauto.
Qed.

(** X12 ([summarize_text] after a failed loading).  With the module-level
    summarizer set as app.py sets it, every request is answered with the
    not-loaded message, nothing invoked, exactly when loading the model
    raised. *)
Theorem summarize_text_after_loading :
  (exists e, summarization hf MODEL_NAME = Raises e)
  <-> (forall text max_len min_len calls,
         App.summarize_text (AppSetup.summarizer hf)
           text max_len min_len calls
         = (Returns App.MSG_NOT_LOADED, calls)).
Proof.
  unfold AppSetup.summarizer.
  destruct (summarization hf MODEL_NAME) as [pipe|e]; simpl; split.
  - intros [e He]. discriminate.
  - intros H. specialize (H [] 0 0 []). discriminate.
  - reflexivity.
  - intros _. eauto.
Qed.

End Loading.

(** ** The example texts *)

Section Examples.

(** X13 (the examples pass the gates).  The example text that each app
    offers under its input box is accepted by that app's handler: with
    the models loaded, the summarizer is invoked on it, whatever the two
    length settings are. *)
Theorem sample_texts_are_accepted (pipe summarize : SummarizationPipeline)
    (ner : NerPipeline) (max_len min_len : Z) (calls : list Call) :
  snd (App.summarize_text (Some pipe)
         AppSetup.SAMPLE_TEXT max_len min_len calls)
  = calls ++ [SummarizerCall AppSetup.SAMPLE_TEXT max_len min_len]
  /\ exists more,
       snd (NerApp.process
              (NerApp.mkTextProcessor (Some summarize) (Some ner))
              NerAppSetup.SAMPLE_TEXT max_len min_len calls)
       = calls
         ++ SummarizerCall NerAppSetup.SAMPLE_TEXT max_len min_len :: more.
Proof.
  split.
  - apply summarize_text_accepted_calls; [now vm_compute|].
    now vm_compute.
  - rewrite process_accepts; [|discriminate | now vm_compute].
    rewrite try_except_calls. apply ner_inference_calls.
Qed.

End Examples.

(** ** More concrete runs *)

Section MoreConcreteRuns.

Import Stubs MoreStubs Stitched.

Lemma stitch_length_with_overlaps_witness :
  forallb (inside tom_met_jerry) overlapping = true
  /\ len (NerApp.joined (NerApp.stitch tom_met_jerry overlapping)) = 16.
Proof.
  split; [reflexivity|].
  exact (stitch_length_with_overlaps tom_met_jerry overlapping eq_refl).
Defined.

Lemma stitch_roundtrip_iff_disjoint_witness :
  forallb (inside tom_met_jerry) with_empty_entity = true
  /\ disjoint with_empty_entity = true
  /\ NerApp.joined (NerApp.stitch tom_met_jerry with_empty_entity)
     = tom_met_jerry.
Proof.
  split; [reflexivity|]. split; [reflexivity|].
  apply (proj2 (stitch_roundtrip_iff_disjoint
                  tom_met_jerry with_empty_entity eq_refl)).
  reflexivity.
Defined.

Lemma summarize_text_accepted_run_witness :
  whitespace_only padded_letters = false
  /\ 50 <= len padded_letters
  /\ App.summarize_text (Some (summarizer_returning short))
       padded_letters 150 30 []
     = (Returns short, [SummarizerCall padded_letters 150 30]).
Proof.
  split; [reflexivity|]. split; [discriminate|].
  apply (summarize_text_accepted_run (summarizer_returning short)
           padded_letters 150 30 []); [reflexivity | discriminate].
Defined.

Lemma process_accepted_run_witness :
  sixty_letters <> []
  /\ 50 <= len (strip sixty_letters)
  /\ NerApp.process
       (NerApp.mkTextProcessor (Some (summarizer_returning short))
          (Some (ner_raising (lit "tagger failed"))))
       sixty_letters 130 30 []
     = (Returns (lit "Error during processing: tagger failed", []),
        [SummarizerCall sixty_letters 130 30; NerCall short]).
Proof.
  split; [discriminate|]. split; [discriminate|].
  apply (process_accepted_run (summarizer_returning short)
           (ner_raising (lit "tagger failed")) sixty_letters 130 30 []);
    discriminate.
Defined.

Lemma process_segments_spell_summary_witness :
  exists segments,
    fst (NerApp.process loaded sixty_letters 130 30 [])
    = Returns (tom_met_jerry, segments)
    /\ NerApp.joined segments = tom_met_jerry.
Proof.
  apply (process_segments_spell_summary loaded sixty_letters 130 30 []
           tom_met_jerry tom_and_jerry); [|reflexivity..].
  exists (summarizer_returning tom_met_jerry), (ner_returning tom_and_jerry),
    (mkSummaryItem tom_met_jerry), [].
  repeat split.
Defined.

Lemma process_gate_is_stricter_witness :
  snd (NerApp.process loaded sixty_letters 130 30 []) <> []
  /\ snd (App.summarize_text (Some (summarizer_returning short))
            sixty_letters 150 30 [])
     = [SummarizerCall sixty_letters 150 30].
Proof.
  split; [discriminate|].
  apply (process_gate_is_stricter (summarizer_returning short)
           (summarizer_returning tom_met_jerry)
           (ner_returning tom_and_jerry)
           sixty_letters 130 30 150 30 [] []).
  discriminate.
Defined.

End MoreConcreteRuns.

(** ** The stitching block and the objects around it *)

Section HeapStitching.

Import NerApp Heap.

Lemma heap_bind_returns {A B} (m : H A) (k : A -> H B)
    (st st' : gmap loc object) (a : A) :
  m st = Some (Returns a, st') -> Heap.bind m k st = k a st'.
Proof. intros Hm. unfold Heap.bind. now rewrite Hm. Qed.

Variable st : gmap loc object.
Variables (ner_res formatted_output : loc).
Variable items : list value.
Variable spans : list Entity.
Variable summary : str.

Hypothesis Hfresh : st !! formatted_output = None.
Hypothesis Hlist : st !! ner_res = Some (OList items).
Hypothesis Hitems :
  Forall2 (fun item e => entity_at st item = Some e) items spans.

Local Abbreviation running := (Heap.running st formatted_output).

Lemma running_items_of (segments : list Segment) :
  items_of ner_res (running segments)
  = Some (Returns items, running segments).
Proof.
  unfold items_of, running.
  rewrite lookup_insert_ne by congruence. now rewrite Hlist.
Qed.

Lemma running_getitem {A} (segments : list Segment) (item : value)
    (e : Entity) (key : Entity -> A) :
  entity_at st item = Some e ->
  getitem item key (running segments)
  = Some (Returns (key e), running segments).
Proof.
  unfold entity_at, getitem, running. destruct item as [l|seg]; [|easy].
  destruct (st !! l) as [[e'|?]|] eqn:Hl; try easy.
  intros [= ->]. rewrite lookup_insert_ne by congruence. now rewrite Hl.
Qed.

Lemma running_append (segments : list Segment) (seg : Segment) :
  append formatted_output (VTuple seg) (running segments)
  = Some (Returns tt, running (segments ++ [seg])).
Proof.
  unfold append, running. rewrite lookup_insert_eq.
  now rewrite insert_insert_eq, map_app.
Qed.

Lemma for_entities_running (rest : list Entity) :
  forall (i : nat) (segments : list Segment) (cursor0 : Z) (fuel : nat),
    drop i spans = rest ->
    (length rest < fuel)%nat ->
    for_entities fuel summary ner_res formatted_output i cursor0
      (running segments)
    = Some (Returns
              (cursor (foldl (stitch_step summary)
                         (mkStitchState segments cursor0) rest)),
            running
              (NerApp.formatted_output
                 (foldl (stitch_step summary)
                    (mkStitchState segments cursor0) rest))).
Proof.
  pose proof (Forall2_length _ _ _ Hitems) as Hlen.
  induction rest as [|e rest' IH]; intros i segments cursor0 fuel Hdrop Hfuel;
    (destruct fuel as [|fuel]; [simpl in Hfuel; lia|]);
    change (for_entities (S fuel) summary ner_res formatted_output i cursor0)
      with (Heap.bind (items_of ner_res) (fun items0 =>
              match items0 !! i with
              | None => Heap.ret cursor0
              | Some entity =>
                  Heap.bind (getitem entity start) (fun start1 =>
                  Heap.bind
                    (if start1 >? cursor0 then
                       Heap.bind (getitem entity start) (fun start2 =>
                         append formatted_output
                           (VTuple (slice summary cursor0 start2, None)))
                     else Heap.ret tt) (fun _ =>
                  Heap.bind (getitem entity start) (fun start3 =>
                  Heap.bind (getitem entity end_) (fun end1 =>
                  Heap.bind (getitem entity entity_group) (fun group =>
                  Heap.bind
                    (append formatted_output
                       (VTuple (slice summary start3 end1, Some group)))
                    (fun _ =>
                  Heap.bind (getitem entity end_) (fun end2 =>
                  for_entities fuel summary ner_res formatted_output
                    (S i) end2)))))))
              end));
    rewrite (heap_bind_returns _ _ _ _ _ (running_items_of segments)).
  - apply drop_nil_inv in Hdrop.
    rewrite (lookup_ge_None_2 items i) by lia. reflexivity.
  - assert (He : spans !! i = Some e).
    { rewrite <- (Nat.add_0_r i), <- lookup_drop, Hdrop. reflexivity. }
    assert (Hrest : drop (S i) spans = rest').
    { rewrite (drop_S _ _ _ He) in Hdrop. congruence. }
    destruct (Forall2_lookup_r _ _ _ _ _ Hitems He) as (item & Hitem & Hat).
    rewrite Hitem.
    rewrite (heap_bind_returns _ _ _ _ _
               (running_getitem segments item e start Hat)).
    set (written := if start e >? cursor0
                    then segments ++ [(slice summary cursor0 (start e), None)]
                    else segments).
    assert (Hgap :
      (if start e >? cursor0 then
         Heap.bind (getitem item start) (fun start2 =>
           append formatted_output
             (VTuple (slice summary cursor0 start2, None)))
       else Heap.ret tt) (running segments)
      = Some (Returns tt, running written)).
    { unfold written. destruct (start e >? cursor0); [|reflexivity].
      rewrite (heap_bind_returns _ _ _ _ _
                 (running_getitem segments item e start Hat)).
      apply running_append. }
    rewrite (heap_bind_returns _ _ _ _ _ Hgap).
    rewrite (heap_bind_returns _ _ _ _ _
               (running_getitem written item e start Hat)).
    rewrite (heap_bind_returns _ _ _ _ _
               (running_getitem written item e end_ Hat)).
    rewrite (heap_bind_returns _ _ _ _ _
               (running_getitem written item e entity_group Hat)).
    rewrite (heap_bind_returns _ _ _ _ _ (running_append written _)).
    rewrite (heap_bind_returns _ _ _ _ _
               (running_getitem _ item e end_ Hat)).
    rewrite (IH (S i) _ (end_ e) fuel Hrest) by (simpl in Hfuel; lia).
    reflexivity.
Qed.

End HeapStitching.

Section PureStitching.

Import Heap.

(** A run of the block on any store that holds the entities: the value
    is a reference not in use before, and the store it leaves is the
    store it was given with one more object, the list of the segments
    that [stitch] computes. *)
Lemma stitch_block_runs (st : gmap loc object) (ner_res : loc)
    (summary : str) (spans : list Entity) (fuel : nat) :
  entities_at st ner_res = Some spans ->
  (length spans < fuel)%nat ->
  st !! fresh (dom st) = None
  /\ stitch_block fuel summary ner_res st
     = Some (Returns (fresh (dom st)),
             <[fresh (dom st)
               := OList (map VTuple (NerApp.stitch summary spans))]> st).
Proof.
  intros Hat Hfuel.
  assert (Hfresh : st !! fresh (dom st) = None).
  { apply not_elem_of_dom. apply is_fresh. }
  split; [exact Hfresh|].
  unfold entities_at in Hat.
  destruct (st !! ner_res) as [[e|items]|] eqn:Hlist; try discriminate.
  apply mapM_Some in Hat.
  unfold stitch_block.
  rewrite (heap_bind_returns _ _ st
             (Heap.running st (fresh (dom st)) []) (fresh (dom st)))
    by reflexivity.
  rewrite (heap_bind_returns _ _ _ _ _
             (for_entities_running st ner_res (fresh (dom st)) items spans
                summary Hfresh Hlist Hat spans 0%nat [] 0 fuel
                eq_refl Hfuel)).
  unfold NerApp.stitch. cbv zeta.
  destruct (_ <? _).
  - rewrite (heap_bind_returns _ _ _ _ _
               (running_append st (fresh (dom st)) _ _)).
    reflexivity.
  - reflexivity.
Qed.

(** C8 (the stitching is pure and deterministic).  Run on a store of
    objects, the stitching block returns a list it has allocated itself,
    at a reference not in use before, and leaves every object that
    existed as it was, the list of entities and the entities themselves
    included.  The segments in that list depend on the text and on the
    entities only: two runs on different stores, with the entities at
    different references, given the same text and the same entities
    return the same segments, those that [stitch] gives. *)
Theorem stitching_is_pure (st1 st2 : gmap loc object)
    (ner_res1 ner_res2 : loc) (summary : str) (spans : list Entity)
    (fuel1 fuel2 : nat) :
  entities_at st1 ner_res1 = Some spans ->
  entities_at st2 ner_res2 = Some spans ->
  (length spans < fuel1)%nat ->
  (length spans < fuel2)%nat ->
  exists (out1 out2 : loc) (segments : list NerApp.Segment),
    segments = NerApp.stitch summary spans
    /\ st1 !! out1 = None
    /\ st2 !! out2 = None
    /\ stitch_block fuel1 summary ner_res1 st1
       = Some (Returns out1, <[out1 := OList (map VTuple segments)]> st1)
    /\ stitch_block fuel2 summary ner_res2 st2
       = Some (Returns out2, <[out2 := OList (map VTuple segments)]> st2).
Proof.
  intros Hat1 Hat2 Hfuel1 Hfuel2.
  destruct (stitch_block_runs st1 ner_res1 summary spans fuel1 Hat1 Hfuel1)
    as [Hnew1 Hrun1].
  destruct (stitch_block_runs st2 ner_res2 summary spans fuel2 Hat2 Hfuel2)
    as [Hnew2 Hrun2].
  exists (fresh (dom st1)), (fresh (dom st2)), (NerApp.stitch summary spans).
  repeat split; assumption.
Qed.

Lemma stitching_is_pure_witness :
  entities_at store1 1%positive = Some Stubs.tom_and_jerry
  /\ entities_at store2 7%positive = Some Stubs.tom_and_jerry
  /\ exists (out1 out2 : loc) (segments : list NerApp.Segment),
       segments = NerApp.stitch Stubs.tom_met_jerry Stubs.tom_and_jerry
       /\ store1 !! out1 = None
       /\ store2 !! out2 = None
       /\ stitch_block 3 Stubs.tom_met_jerry 1%positive store1
          = Some (Returns out1,
                  <[out1 := OList (map VTuple segments)]> store1)
       /\ stitch_block 5 Stubs.tom_met_jerry 7%positive store2
          = Some (Returns out2,
                  <[out2 := OList (map VTuple segments)]> store2).
Proof.
  split; [vm_compute; reflexivity|].
  split; [vm_compute; reflexivity|].
  apply (stitching_is_pure store1 store2 1%positive 7%positive
           Stubs.tom_met_jerry Stubs.tom_and_jerry 3 5).
  - vm_compute; reflexivity.
  - vm_compute; reflexivity.
  - simpl; lia.
  - simpl; lia.
Defined.

End PureStitching.
